(** * Acquisition workers and result sink of the ocean_optics GUI

    A shallow embedding of [src/ocean_optics/gui.py]: the two
    [QThread] workers ([IntegrateSpectrumWorker], [ContinuousSpectrumWorker])
    as small-step machines interleaved with the GUI thread's [stop()] calls,
    and the slots of [UserInterface] as programs of a state-and-exception
    monad over the window's attributes and widgets.  The spectrometer, the
    [SpectroscopyExperiment] class and Qt itself are not part of gui.py;
    they enter as an [Environment] and as the event loop of [fire].  The
    constructor of the window and [set_integration_time], which only
    configure the hardware, are left out. *)

From Stdlib Require Import String List Bool Arith ZArith QArith Lia DecimalString.
Import ListNotations.
Close Scope Q_scope.

Set Implicit Arguments.

(** ** Python outcomes *)

(** The exceptions that occur in the modelled code. [TypeError] is what a
    call with missing positional arguments raises; [OSError] is what
    [open] raises when the path cannot be opened. *)
Inductive exn : Set :=
| TypeError
| DeviceError
| DeviceNotFoundError
| OSError.

(** A call either returns a value or leaves by an exception. *)
Inductive outcome (A : Type) : Type :=
| Returned (a : A)
| Raised (e : exn).

Arguments Returned {A} a.
Arguments Raised {A} e.

(** ** The experiment object and the environment *)

(** The [SpectroscopyExperiment] object shared by the window and both
    workers.  [exp_stopped] is its [stopped] attribute (written by
    [IntegrateSpectrumWorker.run]); [reads] counts the hardware reads done
    so far and indexes the hardware's answers. *)
Record Experiment : Set := {
  exp_stopped : bool;
  reads : nat
}.

Definition set_exp_stopped (b : bool) (e : Experiment) : Experiment :=
  {| exp_stopped := b; reads := reads e |}.

Definition count_read (e : Experiment) : Experiment :=
  {| exp_stopped := exp_stopped e; reads := S (reads e) |}.

(** One hardware read against a device whose [n]-th answer is [dev n]. *)
Definition hardware_read {S : Type} (dev : nat -> outcome S) (e : Experiment)
  : outcome S * Experiment :=
  (dev (reads e), count_read e).

(** What one [next()] on a generator does: yield a value and suspend,
    finish ([StopIteration]), or raise.  Each case carries the experiment
    object as the generator body left it. *)
Inductive gen_result (S G : Type) : Type :=
| Yield (s : S) (g : G) (e : Experiment)
| StopIteration (e : Experiment)
| GenRaise (x : exn) (e : Experiment).

Arguments Yield {S G} s g e.
Arguments StopIteration {S G} e.
Arguments GenRaise {S G} x e.

(** The parts of the program's surroundings that [gui.py] uses but does not
    define: the sample type of the numpy arrays, the spectrometer, the
    generator returned by [SpectroscopyExperiment.integrate_spectrum]
    (here [exp_integrate_spectrum]; an iterator: a state and its [next]),
    and [str] on a sample as [csv.writer] applies it. *)
Class Environment : Type := {
  sample : Type;
  device_read : nat -> outcome (list sample * list sample);
  generator : Type;
  exp_integrate_spectrum : Z -> generator;
  next : generator -> Experiment -> gen_result (list sample * list sample) generator;
  str : sample -> string
}.

Section Workers.

Context {env : Environment}.

Definition NDArray : Type := list sample.

(** A spectrum as the code passes it around: (wavelengths, intensities). *)
Definition Spectrum : Type := (NDArray * NDArray)%type.

(** Modelled from the spec: [SpectroscopyExperiment.get_spectrum], whose
    body is in spectroscopy.py and not in gui.py.  One hardware read: it
    returns the spectrum the device answers with, or fails with the
    device's error. *)
Definition get_spectrum (e : Experiment) : outcome Spectrum * Experiment :=
  hardware_read device_read e.

(** Qt signals emitted by a worker, in emission order. *)
Inductive signal : Type :=
| new_data (s : Spectrum)
| progress_sig (idx : nat).

(** The spectra among the emitted signals, and the progress indices. *)
Fixpoint spectra (l : list signal) : list Spectrum :=
  match l with
  | [] => []
  | new_data s :: r => s :: spectra r
  | progress_sig _ :: r => spectra r
  end.

Fixpoint progress_indices (l : list signal) : list nat :=
  match l with
  | [] => []
  | new_data _ :: r => progress_indices r
  | progress_sig i :: r => i :: progress_indices r
  end.

(** What can happen next while a worker thread runs: the worker executes
    its next statement ([Tick]) or the GUI thread calls the worker's
    [stop()] ([Stop]). *)
Inductive action : Set := Tick | Stop.

Fixpoint exec {St : Type} (act : action -> St -> St) (sched : list action) (st : St) : St :=
  match sched with
  | [] => st
  | a :: r => exec act r (act a st)
  end.

Definition is_tick (a : action) : bool :=
  match a with Tick => true | Stop => false end.

Definition ticks (sched : list action) : nat :=
  length (filter is_tick sched).

(** *** IntegrateSpectrumWorker *)

(** Program points of [IntegrateSpectrumWorker.run]. *)
Inductive ipc : Type :=
| IEnter                      (* before [self.stopped = False] *)
| INext                       (* the [for] asks the generator for the next item *)
| IEmitData (s : Spectrum)    (* before [self.new_data.emit(...)] *)
| IEmitProgress               (* before [self.progress.emit(idx)] *)
| ICheck                      (* before [if self.stopped] *)
| IExit (o : outcome unit).   (* [run] has returned or raised *)

Record IntegrateRun : Type := {
  i_stopped : bool;              (* self.stopped *)
  i_count : Z;                   (* self.count *)
  i_experiment : Experiment;     (* self.experiment *)
  i_iter : option generator;     (* the iterator of the [for] *)
  i_idx : nat;                   (* idx, from enumerate(..., start=1) *)
  i_pc : ipc;
  i_emitted : list signal
}.

(** The thread as [QThread.start()] leaves it, after [setup]. *)
Definition integrate_start (flag : bool) (count : Z) (e : Experiment) : IntegrateRun :=
  {| i_stopped := flag; i_count := count; i_experiment := e;
     i_iter := None; i_idx := 0; i_pc := IEnter; i_emitted := [] |}.

Definition integrate_tick (st : IntegrateRun) : IntegrateRun :=
  match i_pc st with
  | IEnter =>
      {| i_stopped := false; i_count := i_count st;
         i_experiment := i_experiment st;
         i_iter := Some (exp_integrate_spectrum (i_count st));
         i_idx := 0; i_pc := INext; i_emitted := i_emitted st |}
  | INext =>
      match i_iter st with
      | None => st
      | Some g =>
          match next g (i_experiment st) with
          | Yield s g' e' =>
              {| i_stopped := i_stopped st; i_count := i_count st;
                 i_experiment := e'; i_iter := Some g';
                 i_idx := S (i_idx st); i_pc := IEmitData s;
                 i_emitted := i_emitted st |}
          | StopIteration e' =>
              {| i_stopped := i_stopped st; i_count := i_count st;
                 i_experiment := e'; i_iter := Some g;
                 i_idx := i_idx st; i_pc := IExit (Returned tt);
                 i_emitted := i_emitted st |}
          | GenRaise x e' =>
              {| i_stopped := i_stopped st; i_count := i_count st;
                 i_experiment := e'; i_iter := Some g;
                 i_idx := i_idx st; i_pc := IExit (Raised x);
                 i_emitted := i_emitted st |}
          end
      end
  | IEmitData s =>
      {| i_stopped := i_stopped st; i_count := i_count st;
         i_experiment := i_experiment st; i_iter := i_iter st;
         i_idx := i_idx st; i_pc := IEmitProgress;
         i_emitted := i_emitted st ++ [new_data s] |}
  | IEmitProgress =>
      {| i_stopped := i_stopped st; i_count := i_count st;
         i_experiment := i_experiment st; i_iter := i_iter st;
         i_idx := i_idx st; i_pc := ICheck;
         i_emitted := i_emitted st ++ [progress_sig (i_idx st)] |}
  | ICheck =>
      {| i_stopped := i_stopped st; i_count := i_count st;
         i_experiment :=
           if i_stopped st then set_exp_stopped true (i_experiment st)
           else i_experiment st;
         i_iter := i_iter st; i_idx := i_idx st; i_pc := INext;
         i_emitted := i_emitted st |}
  | IExit _ => st
  end.

(** [MeasurementWorker.stop] on the integrate worker. *)
Definition integrate_stop (st : IntegrateRun) : IntegrateRun :=
  {| i_stopped := true; i_count := i_count st;
     i_experiment := i_experiment st; i_iter := i_iter st;
     i_idx := i_idx st; i_pc := i_pc st; i_emitted := i_emitted st |}.

Definition integrate_act (a : action) : IntegrateRun -> IntegrateRun :=
  match a with Tick => integrate_tick | Stop => integrate_stop end.

(** The generator yields exactly the spectra [l], then finishes, when
    started on experiment [e] and left undisturbed. *)
Fixpoint yields (g : generator) (e : Experiment) (l : list Spectrum) : Prop :=
  match l with
  | [] => exists e', next g e = StopIteration e'
  | s :: l' => exists g' e', next g e = Yield s g' e' /\ yields g' e' l'
  end.

(** What the generator yields when resumed at most [fuel] times and left
    undisturbed. *)
Fixpoint drain (fuel : nat) (g : generator) (e : Experiment) : list Spectrum :=
  match fuel with
  | O => []
  | S f =>
      match next g e with
      | Yield s g' e' => s :: drain f g' e'
      | _ => []
      end
  end.

(** Modelled from the spec: the stop contract of
    [SpectroscopyExperiment.integrate_spectrum], whose body is in
    spectroscopy.py and not in gui.py.  The series is early-stoppable by
    the experiment's [stopped] attribute: once it is set, the generator
    finishes at its next resumption and performs no further hardware read
    (it hands the experiment back as it found it). *)
Definition honours_stop : Prop :=
  forall g e, exp_stopped e = true -> next g e = StopIteration e.

(** The emissions of an undisturbed integrate run over spectra [l], the
    first of them having index [i]. *)
Fixpoint steps_from (i : nat) (l : list Spectrum) : list signal :=
  match l with
  | [] => []
  | s :: l' => new_data s :: progress_sig i :: steps_from (S i) l'
  end.

(** *** ContinuousSpectrumWorker *)

Inductive cpc : Type :=
| CEnter                      (* before [self.stopped = False] *)
| CRead                       (* before [self.experiment.get_spectrum()] *)
| CEmit (s : Spectrum)        (* before [self.new_data.emit(...)] *)
| CCheck                      (* before [if self.stopped] *)
| CExit (o : outcome unit).

Record ContinuousRun : Type := {
  c_stopped : bool;
  c_experiment : Experiment;
  c_pc : cpc;
  c_emitted : list signal
}.

Definition continuous_start (flag : bool) (e : Experiment) : ContinuousRun :=
  {| c_stopped := flag; c_experiment := e; c_pc := CEnter; c_emitted := [] |}.

Definition continuous_tick (st : ContinuousRun) : ContinuousRun :=
  match c_pc st with
  | CEnter =>
      {| c_stopped := false; c_experiment := c_experiment st;
         c_pc := CRead; c_emitted := c_emitted st |}
  | CRead =>
      match get_spectrum (c_experiment st) with
      | (Returned s, e') =>
          {| c_stopped := c_stopped st; c_experiment := e';
             c_pc := CEmit s; c_emitted := c_emitted st |}
      | (Raised x, e') =>
          {| c_stopped := c_stopped st; c_experiment := e';
             c_pc := CExit (Raised x); c_emitted := c_emitted st |}
      end
  | CEmit s =>
      {| c_stopped := c_stopped st; c_experiment := c_experiment st;
         c_pc := CCheck; c_emitted := c_emitted st ++ [new_data s] |}
  | CCheck =>
      {| c_stopped := c_stopped st; c_experiment := c_experiment st;
         c_pc := if c_stopped st then CExit (Returned tt) else CRead;
         c_emitted := c_emitted st |}
  | CExit _ => st
  end.

Definition continuous_stop (st : ContinuousRun) : ContinuousRun :=
  {| c_stopped := true; c_experiment := c_experiment st;
     c_pc := c_pc st; c_emitted := c_emitted st |}.

Definition continuous_act (a : action) : ContinuousRun -> ContinuousRun :=
  match a with Tick => continuous_tick | Stop => continuous_stop end.

(** The values a flag takes along a schedule, the starting value first. *)
Fixpoint flag_trace {St : Type} (flag : St -> bool) (act : action -> St -> St)
    (sched : list action) (st : St) : list bool :=
  flag st ::
  match sched with
  | [] => []
  | a :: r => flag_trace flag act r (act a st)
  end.

(** How often a list of booleans steps from [a] to [b]. *)
Fixpoint transitions (a b : bool) (l : list bool) : nat :=
  match l with
  | x :: (y :: _) as r =>
      (if Bool.eqb x a && Bool.eqb y b then 1 else 0) + transitions a b r
  | _ => 0
  end.

(** The number of spectra emitted so far agrees with the loop index at
    every program point of the run, and the iterator exists past the
    entry. *)
Definition integrate_inv (st : IntegrateRun) : Prop :=
  match i_pc st with
  | IEnter => i_emitted st = []
  | IEmitData _ => S (length (spectra (i_emitted st))) = i_idx st /\ i_iter st <> None
  | IExit _ => True
  | _ => length (spectra (i_emitted st)) = i_idx st /\ i_iter st <> None
  end.

(** How many worker steps separate a winding-down integrate run from its
    exit. *)
Definition integrate_rank (st : IntegrateRun) : nat :=
  match i_pc st with
  | ICheck => 2
  | INext => 1
  | _ => 0
  end.

(** The run after its flag was seen set: at the check with the flag set,
    or at the [for] with the experiment signalled, or out of the loop. *)
Definition winding_down (st : IntegrateRun) : Prop :=
  i_iter st <> None /\
  ((i_pc st = ICheck /\ i_stopped st = true) \/
   (i_pc st = INext /\ exp_stopped (i_experiment st) = true) \/
   i_pc st = IExit (Returned tt)).

(** Every hardware read succeeds. *)
Definition device_never_fails : Prop :=
  forall n, exists s, device_read n = Returned s.

(** The continuous worker is inside its loop (not before the reset, not
    out of [run]). *)
Definition in_loop (st : ContinuousRun) : Prop :=
  match c_pc st with
  | CRead | CEmit _ | CCheck => True
  | _ => False
  end.

(** Worker steps to the exit of a continuous run whose flag is set, and the
    emissions still to come on that way. *)
Definition continuous_rank (st : ContinuousRun) : nat :=
  match c_pc st with
  | CRead => 3
  | CEmit _ => 2
  | CCheck => 1
  | _ => 0
  end.

Definition continuous_pending (st : ContinuousRun) : nat :=
  match c_pc st with
  | CRead | CEmit _ => 1
  | _ => 0
  end.

(** A continuous run reaches its check, and its normal exit, only with an
    emission behind it. *)
Definition continuous_inv (st : ContinuousRun) : Prop :=
  match c_pc st with
  | CCheck | CExit (Returned _) => spectra (c_emitted st) <> []
  | _ => True
  end.

End Workers.

(** ** The main window *)

Section Window.

Context {env : Environment}.

(** How [plot_data] draws: a pen (lines) or symbols only (markers). *)
Inductive style : Set := Lines | Markers.

Record PlotWidget : Type := {
  curves : list (Spectrum * style);
  left_label : option string;
  bottom_label : option string;
  y_min : option Z
}.

Record ProgressBar : Set := {
  minimum : Z;
  maximum : Z;
  value : Z
}.

(** The widgets of [self.ui] that the slots touch; a button is its
    enabled state. *)
Record Ui_MainWindow : Type := {
  num_integrations : Z;
  single_button : bool;
  integrate_button : bool;
  continuous_button : bool;
  stop_button : bool;
  progress_bar : ProgressBar;
  plot_widget : PlotWidget
}.

(** A worker object as the window sees it: the [stopped] attribute, Qt's
    [isRunning()], whether [setup] has bound [self.experiment] (always to
    the window's one experiment object) and, for the integrate worker,
    [self.count]. *)
Record MeasurementWorker : Set := {
  stopped : bool;
  isRunning : bool;
  has_experiment : bool;
  count : option Z
}.

(** What a slot does to the world outside the window object. *)
Inductive effect : Set :=
| warning_box (title text : string)
| information_box (title text : string)
| file_written (path : string) (rows : list (list string)).

Record UserInterface : Type := {
  _wavelengths : option NDArray;
  _intensities : option NDArray;
  _show_lines : bool;
  experiment : Experiment;
  integrate_spectrum_worker : MeasurementWorker;
  continuous_spectrum_worker : MeasurementWorker;
  ui : Ui_MainWindow;
  effects : list effect
}.

(** *** Methods as state-and-exception programs *)

Definition method (A : Type) : Type := UserInterface -> outcome A * UserInterface.

Definition ret {A : Type} (a : A) : method A := fun self => (Returned a, self).

Definition bind {A B : Type} (m : method A) (k : A -> method B) : method B :=
  fun self =>
    match m self with
    | (Returned a, self') => k a self'
    | (Raised e, self') => (Raised e, self')
    end.

Definition raise {A : Type} (e : exn) : method A := fun self => (Raised e, self).

Definition gets {A : Type} (f : UserInterface -> A) : method A :=
  fun self => (Returned (f self), self).

Definition modify (f : UserInterface -> UserInterface) : method unit :=
  fun self => (Returned tt, f self).

Notation "x <- m ;; k" := (bind m (fun x => k))
  (at level 61, m at next level, right associativity).
Notation "m ;; k" := (bind m (fun _ => k))
  (at level 61, right associativity).

(** Attribute and widget updates. *)
Definition with_ui (f : Ui_MainWindow -> Ui_MainWindow) (self : UserInterface) : UserInterface :=
  {| _wavelengths := _wavelengths self; _intensities := _intensities self;
     _show_lines := _show_lines self; experiment := experiment self;
     integrate_spectrum_worker := integrate_spectrum_worker self;
     continuous_spectrum_worker := continuous_spectrum_worker self;
     ui := f (ui self); effects := effects self |}.

Definition with_data (w i : option NDArray) (self : UserInterface) : UserInterface :=
  {| _wavelengths := w; _intensities := i;
     _show_lines := _show_lines self; experiment := experiment self;
     integrate_spectrum_worker := integrate_spectrum_worker self;
     continuous_spectrum_worker := continuous_spectrum_worker self;
     ui := ui self; effects := effects self |}.

Definition with_show_lines (b : bool) (self : UserInterface) : UserInterface :=
  {| _wavelengths := _wavelengths self; _intensities := _intensities self;
     _show_lines := b; experiment := experiment self;
     integrate_spectrum_worker := integrate_spectrum_worker self;
     continuous_spectrum_worker := continuous_spectrum_worker self;
     ui := ui self; effects := effects self |}.

Definition with_experiment (e : Experiment) (self : UserInterface) : UserInterface :=
  {| _wavelengths := _wavelengths self; _intensities := _intensities self;
     _show_lines := _show_lines self; experiment := e;
     integrate_spectrum_worker := integrate_spectrum_worker self;
     continuous_spectrum_worker := continuous_spectrum_worker self;
     ui := ui self; effects := effects self |}.

Definition with_integrate_worker (f : MeasurementWorker -> MeasurementWorker)
    (self : UserInterface) : UserInterface :=
  {| _wavelengths := _wavelengths self; _intensities := _intensities self;
     _show_lines := _show_lines self; experiment := experiment self;
     integrate_spectrum_worker := f (integrate_spectrum_worker self);
     continuous_spectrum_worker := continuous_spectrum_worker self;
     ui := ui self; effects := effects self |}.

Definition with_continuous_worker (f : MeasurementWorker -> MeasurementWorker)
    (self : UserInterface) : UserInterface :=
  {| _wavelengths := _wavelengths self; _intensities := _intensities self;
     _show_lines := _show_lines self; experiment := experiment self;
     integrate_spectrum_worker := integrate_spectrum_worker self;
     continuous_spectrum_worker := f (continuous_spectrum_worker self);
     ui := ui self; effects := effects self |}.

Definition with_effect (x : effect) (self : UserInterface) : UserInterface :=
  {| _wavelengths := _wavelengths self; _intensities := _intensities self;
     _show_lines := _show_lines self; experiment := experiment self;
     integrate_spectrum_worker := integrate_spectrum_worker self;
     continuous_spectrum_worker := continuous_spectrum_worker self;
     ui := ui self; effects := effects self ++ [x] |}.

Definition set_buttons (single integrate continuous stop_b : bool)
    (u : Ui_MainWindow) : Ui_MainWindow :=
  {| num_integrations := num_integrations u;
     single_button := single; integrate_button := integrate;
     continuous_button := continuous; stop_button := stop_b;
     progress_bar := progress_bar u; plot_widget := plot_widget u |}.

Definition with_progress_bar (f : ProgressBar -> ProgressBar)
    (u : Ui_MainWindow) : Ui_MainWindow :=
  {| num_integrations := num_integrations u;
     single_button := single_button u; integrate_button := integrate_button u;
     continuous_button := continuous_button u; stop_button := stop_button u;
     progress_bar := f (progress_bar u); plot_widget := plot_widget u |}.

Definition with_plot_widget (f : PlotWidget -> PlotWidget)
    (u : Ui_MainWindow) : Ui_MainWindow :=
  {| num_integrations := num_integrations u;
     single_button := single_button u; integrate_button := integrate_button u;
     continuous_button := continuous_button u; stop_button := stop_button u;
     progress_bar := progress_bar u; plot_widget := f (plot_widget u) |}.

Definition with_num_integrations (n : Z) (u : Ui_MainWindow) : Ui_MainWindow :=
  {| num_integrations := n;
     single_button := single_button u; integrate_button := integrate_button u;
     continuous_button := continuous_button u; stop_button := stop_button u;
     progress_bar := progress_bar u; plot_widget := plot_widget u |}.

(** Progress bar calls, recorded as the widget's range and value. *)
Definition setRange (lo hi : Z) : method unit :=
  modify (with_ui (with_progress_bar (fun p =>
    {| minimum := lo; maximum := hi; value := value p |}))).

Definition setMinimum (lo : Z) : method unit :=
  modify (with_ui (with_progress_bar (fun p =>
    {| minimum := lo; maximum := maximum p; value := value p |}))).

Definition setMaximum (hi : Z) : method unit :=
  modify (with_ui (with_progress_bar (fun p =>
    {| minimum := minimum p; maximum := hi; value := value p |}))).

Definition setValue (v : Z) : method unit :=
  modify (with_ui (with_progress_bar (fun p =>
    {| minimum := minimum p; maximum := maximum p; value := v |}))).

(** *** MeasurementWorker methods *)

(** [MeasurementWorker.setup] and [IntegrateSpectrumWorker.setup]. *)
Definition setup (c : option Z) (w : MeasurementWorker) : MeasurementWorker :=
  {| stopped := stopped w; isRunning := isRunning w;
     has_experiment := true;
     count := match c with Some _ => c | None => count w end |}.

(** [MeasurementWorker.stop]. *)
Definition stop (w : MeasurementWorker) : MeasurementWorker :=
  {| stopped := true; isRunning := isRunning w;
     has_experiment := has_experiment w; count := count w |}.

(** [QThread.start]: the thread begins to execute [run]; on a thread that
    is already running the call does nothing. *)
Definition start (w : MeasurementWorker) : MeasurementWorker :=
  {| stopped := stopped w; isRunning := true;
     has_experiment := has_experiment w; count := count w |}.

(** The thread leaves [run] (by return or exception). *)
Definition thread_ends (w : MeasurementWorker) : MeasurementWorker :=
  {| stopped := stopped w; isRunning := false;
     has_experiment := has_experiment w; count := count w |}.

(** *** UserInterface methods *)

Definition disable_measurement_buttons : method unit :=
  modify (with_ui (set_buttons false false false true)).

Definition worker_has_finished : method unit :=
  modify (with_ui (set_buttons true true true false)).

(** The body of [plot_data], its two parameters bound. *)
Definition plot_data (wavelengths intensities : NDArray) : method unit :=
  modify (with_data (Some wavelengths) (Some intensities)) ;;
  modify (with_ui (with_plot_widget (fun p =>
    {| curves := []; left_label := left_label p;
       bottom_label := bottom_label p; y_min := y_min p |}))) ;;
  show_lines <- gets _show_lines ;;
  modify (with_ui (with_plot_widget (fun p =>
    {| curves := curves p ++
         [((wavelengths, intensities), if show_lines then Lines else Markers)];
       left_label := left_label p;
       bottom_label := bottom_label p; y_min := y_min p |}))) ;;
  modify (with_ui (with_plot_widget (fun p =>
    {| curves := curves p; left_label := Some "Intensity"%string;
       bottom_label := bottom_label p; y_min := y_min p |}))) ;;
  modify (with_ui (with_plot_widget (fun p =>
    {| curves := curves p; left_label := left_label p;
       bottom_label := Some "Wavelength (nm)"%string; y_min := y_min p |}))) ;;
  modify (with_ui (with_plot_widget (fun p =>
    {| curves := curves p; left_label := left_label p;
       bottom_label := bottom_label p; y_min := Some 0%Z |}))).

(** A call of [self.plot_data]: Python binds the positional arguments
    to the two required parameters before the body runs, and raises
    [TypeError] when their number is wrong. *)
Definition call_plot_data (args : list NDArray) : method unit :=
  match args with
  | [wavelengths; intensities] => plot_data wavelengths intensities
  | _ => raise TypeError
  end.

Definition plot_new_data (wavelengths intensities : NDArray) : method unit :=
  call_plot_data [wavelengths; intensities].

(** [self.experiment.get_spectrum()] from the GUI thread. *)
Definition experiment_get_spectrum : method Spectrum :=
  fun self =>
    let (r, e') := get_spectrum (experiment self) in
    (r, with_experiment e' self).

Definition single_measurement : method unit :=
  setRange 0 1 ;;
  s <- experiment_get_spectrum ;;
  call_plot_data [fst s; snd s].

Definition integrate_spectrum : method unit :=
  disable_measurement_buttons ;;
  c <- gets (fun self => num_integrations (ui self)) ;;
  setRange 0 c ;;
  setValue 0 ;;
  modify (with_integrate_worker (setup (Some c))) ;;
  modify (with_integrate_worker start).

Definition continuous_spectrum : method unit :=
  disable_measurement_buttons ;;
  setMinimum 0 ;;
  setMaximum 0 ;;
  modify (with_continuous_worker (setup None)) ;;
  modify (with_continuous_worker start).

Definition stop_measurement : method unit :=
  running <- gets (fun self => isRunning (continuous_spectrum_worker self)) ;;
  if running : bool then
    modify (with_continuous_worker stop) ;;
    setRange 0 1
  else
    modify (with_integrate_worker stop).

Definition toggle_lines_markers : method unit :=
  show_lines <- gets _show_lines ;;
  modify (with_show_lines (negb show_lines)) ;;
  call_plot_data [].

Definition update_progress_bar (v : Z) : method unit :=
  setValue v.

(** The rows [save_data] hands to [csv.writer.writerow]: the header, then
    one row per pair of [zip(self._wavelengths, self._intensities)], each
    cell being [str] of the value. *)
Definition csv_header : list string :=
  ["Wavelength (nm)"%string; "Intensity"%string].

Definition csv_rows (wavelengths intensities : NDArray) : list (list string) :=
  map (fun p => [str (fst p); str (snd p)]) (combine wavelengths intensities).

(** [save_data].  [path] is what the file dialog returns and [opens]
    whether [open(path, mode=w)] succeeds. *)
Definition save_data (path : string) (opens : bool) : method unit :=
  w <- gets _wavelengths ;;
  i <- gets _intensities ;;
  match w, i with
  | Some wavelengths, Some intensities =>
      if opens then
        modify (with_effect
          (file_written path (csv_header :: csv_rows wavelengths intensities))) ;;
        modify (with_effect
          (information_box "Data saved"
             ("Data saved successfully to " ++ path ++ ".")%string))
      else raise OSError
  | _, _ =>
      modify (with_effect
        (warning_box "No data" "Perform a measurement before saving."))
  end.

(** *** The event loop *)

(** The window together with the [finished] signals of worker threads that
    are queued for the GUI thread. *)
Record App : Type := {
  window : UserInterface;
  pending_finished : nat
}.

Inductive event : Type :=
| click_single
| click_integrate
| click_continuous
| click_stop
| click_toggle_lines
| click_save (path : string) (opens : bool)
| spin_num_integrations (n : Z)
| new_data_delivered (s : Spectrum)
| progress_delivered (v : Z)
| integrate_thread_ends
| continuous_thread_ends
| finished_delivered.

(** Run a slot from the event loop: the window keeps what the slot did,
    also when the slot raised. *)
Definition run_slot (m : method unit) (a : App) : App :=
  {| window := snd (m (window a)); pending_finished := pending_finished a |}.

(** A click reaches its slot only when the button is enabled. *)
Definition on_click (enabled : bool) (m : method unit) (a : App) : option App :=
  if enabled then Some (run_slot m a) else None.

Definition fire (ev : event) (a : App) : option App :=
  let u := ui (window a) in
  match ev with
  | click_single => on_click (single_button u) single_measurement a
  | click_integrate => on_click (integrate_button u) integrate_spectrum a
  | click_continuous => on_click (continuous_button u) continuous_spectrum a
  | click_stop => on_click (stop_button u) stop_measurement a
  | click_toggle_lines => Some (run_slot toggle_lines_markers a)
  | click_save path opens => Some (run_slot (save_data path opens) a)
  | spin_num_integrations n =>
      Some (run_slot (modify (with_ui (with_num_integrations n))) a)
  | new_data_delivered s => Some (run_slot (plot_new_data (fst s) (snd s)) a)
  | progress_delivered v => Some (run_slot (update_progress_bar v) a)
  | integrate_thread_ends =>
      if isRunning (integrate_spectrum_worker (window a)) then
        Some {| window := with_integrate_worker thread_ends (window a);
                pending_finished := S (pending_finished a) |}
      else None
  | continuous_thread_ends =>
      if isRunning (continuous_spectrum_worker (window a)) then
        Some {| window := with_continuous_worker thread_ends (window a);
                pending_finished := S (pending_finished a) |}
      else None
  | finished_delivered =>
      match pending_finished a with
      | O => None
      | S n =>
          Some {| window := snd (worker_has_finished (window a));
                  pending_finished := n |}
      end
  end.

Fixpoint fire_all (evs : list event) (a : App) : option App :=
  match evs with
  | [] => Some a
  | ev :: r =>
      match fire ev a with
      | Some a' => fire_all r a'
      | None => None
      end
  end.

(** The files among the effects, oldest first. *)
Fixpoint files_written (l : list effect) : list (string * list (list string)) :=
  match l with
  | [] => []
  | file_written path rows :: r => (path, rows) :: files_written r
  | _ :: r => files_written r
  end.

Definition running_workers (self : UserInterface) : nat :=
  (if isRunning (integrate_spectrum_worker self) then 1 else 0) +
  (if isRunning (continuous_spectrum_worker self) then 1 else 0).

(** While a worker runs, or its [finished] signal is still queued, the three
    start buttons are disabled; running workers and queued [finished]
    signals together number at most one. *)
Definition app_inv (a : App) : Prop :=
  let u := ui (window a) in
  (1 <= running_workers (window a) + pending_finished a ->
   single_button u = false /\ integrate_button u = false /\
   continuous_button u = false) /\
  running_workers (window a) + pending_finished a <= 1.

(** Two windows agree on the start buttons and on which workers run. *)
Definition same_controls (s s' : UserInterface) : Prop :=
  single_button (ui s') = single_button (ui s) /\
  integrate_button (ui s') = integrate_button (ui s) /\
  continuous_button (ui s') = continuous_button (ui s) /\
  isRunning (integrate_spectrum_worker s') = isRunning (integrate_spectrum_worker s) /\
  isRunning (continuous_spectrum_worker s') = isRunning (continuous_spectrum_worker s).

End Window.

(** ** A progressive-averaging series and sample devices *)

(** Modelled from the spec: the generator of
    [SpectroscopyExperiment.integrate_spectrum(count)], whose body is in
    spectroscopy.py and not in gui.py.  A finite series of at most [count]
    steps; step k reads one raw scan from the hardware and yields the
    wavelengths with the running mean of the intensities of scans 1..k; once
    the experiment's [stopped] attribute is set the series ends without a
    further hardware read. *)
Record Series (S : Type) : Type := {
  remaining : nat;
  scans : list (list S)
}.

(** Modelled from the spec: the generator object for [count] scans, before
    its first resumption. *)
Definition series {S : Type} (count : Z) : Series S :=
  {| remaining := Z.to_nat count; scans := [] |}.

(** Modelled from the spec: one resumption of that generator.  [mean] is
    the mean over the scans taken so far, position by position. *)
Definition series_next {S : Type} (dev : nat -> outcome (list S * list S))
    (mean : list (list S) -> list S) (g : Series S) (e : Experiment)
  : gen_result (list S * list S) (Series S) :=
  if exp_stopped e then StopIteration e
  else
    match remaining g with
    | O => StopIteration e
    | S r =>
        match hardware_read dev e with
        | (Returned (w, i), e') =>
            Yield (w, mean (scans g ++ [i]))
                  {| remaining := r; scans := scans g ++ [i] |} e'
        | (Raised x, e') => GenRaise x e'
        end
    end.

(** The mean over the scans, position by position, on rationals. *)
Fixpoint add_scans (a b : list Q) : list Q :=
  match a, b with
  | x :: a', y :: b' => (x + y)%Q :: add_scans a' b'
  | _, _ => []
  end.

Definition mean_scans (l : list (list Q)) : list Q :=
  match l with
  | [] => []
  | s :: r =>
      map (fun x => (x / inject_Z (Z.of_nat (length l)))%Q)
          (fold_left add_scans r s)
  end.

Definition str_Q (q : Q) : string :=
  (NilZero.string_of_int (Z.to_int (Qnum q)) ++ "/" ++
   NilZero.string_of_uint (Pos.to_uint (Qden q)))%string.

(** An environment over rational samples with the series above. *)
Definition series_env (dev : nat -> outcome (list Q * list Q)) : Environment :=
  {| sample := Q;
     device_read := dev;
     generator := Series Q;
     exp_integrate_spectrum := series;
     next := series_next dev mean_scans;
     str := str_Q |}.

(** A device that always answers: three wavelengths, intensities that grow
    with the read number. *)
Definition steady_device (n : nat) : outcome (list Q * list Q) :=
  Returned ([inject_Z 400; inject_Z 500; inject_Z 600],
            [inject_Z (Z.of_nat n); inject_Z (Z.of_nat (2 * n)); inject_Z 7]).

(** A device whose second read fails. *)
Definition failing_device (n : nat) : outcome (list Q * list Q) :=
  if Nat.eqb n 1 then Raised DeviceError else steady_device n.

Definition fresh_experiment : Experiment :=
  {| exp_stopped := false; reads := 0 |}.

Definition idle_worker : MeasurementWorker :=
  {| stopped := false; isRunning := false; has_experiment := false; count := None |}.

(** The window of a fresh session over environment [env]: no data yet,
    lines shown, start buttons enabled, no worker running. *)
Definition fresh_window (env : Environment) : @UserInterface env :=
  {| _wavelengths := None; _intensities := None; _show_lines := true;
     experiment := fresh_experiment;
     integrate_spectrum_worker := idle_worker;
     continuous_spectrum_worker := idle_worker;
     ui := {| num_integrations := 5%Z;
              single_button := true; integrate_button := true;
              continuous_button := true; stop_button := false;
              progress_bar := {| minimum := 0%Z; maximum := 1%Z; value := 0%Z |};
              plot_widget := {| curves := []; left_label := None;
                                bottom_label := None; y_min := None |} |};
     effects := [] |}.

(** Two laboratories: one with the steady device, one with the failing. *)
Definition lab : Environment := series_env steady_device.

Definition faulty_lab : Environment := series_env failing_device.

(** A window of [lab] that holds a spectrum of three sample pairs. *)
Definition window_with_data : @UserInterface lab :=
  with_data (env := lab)
    (Some [inject_Z 400; inject_Z 500; inject_Z 600])
    (Some [inject_Z 1; inject_Z 2; inject_Z 7])
    (fresh_window lab).

(** The window of [lab] after the continuous button was clicked. *)
Definition window_continuous : @UserInterface lab :=
  snd (continuous_spectrum (fresh_window lab)).

(** The window of [lab] after the integrate button was clicked. *)
Definition window_integrating : @UserInterface lab :=
  snd (integrate_spectrum (fresh_window lab)).

(** A session: continuous mode is started, a spectrum arrives, stop is
    clicked, the thread ends and its [finished] is delivered; then integrate
    mode is started. *)
Definition session : list (@event lab) :=
  [click_continuous;
   new_data_delivered (env := lab) ([inject_Z 400], [inject_Z 3]);
   click_stop; continuous_thread_ends; finished_delivered; click_integrate].

Definition fresh_app : @App lab :=
  {| window := fresh_window lab; pending_finished := 0 |}.

Definition after_session : @App lab :=
  match fire_all session fresh_app with
  | Some a => a
  | None => fresh_app
  end.

(** An integrate run of five scans in [lab] in which stop() is called while
    the first spectrum is being delivered: the worker is then at the check
    of step 1 with its flag set. *)
Definition stop_during_step_1 : list action := [Tick; Tick; Tick; Stop; Tick].



(** ** Signal wiring and further invariants *)

Section Wiring.

Context {env : Environment}.

(** The connections made in [UserInterface.__init__]: a worker's [new_data]
    signal is connected to [plot_new_data] and the integrate worker's
    [progress] signal to [update_progress_bar].  A signal emitted by a
    worker thread reaches the window as the corresponding event of the
    event loop. *)
Definition deliver (sg : signal) : event :=
  match sg with
  | new_data s => new_data_delivered s
  | progress_sig idx => progress_delivered (Z.of_nat idx)
  end.

(** The last element of a list, if any. *)
Definition last_opt {A : Type} (l : list A) : option A := hd_error (rev l).

(** The emissions of an integrate run so far: steps 1..n complete, with at
    most one spectrum still waiting for its progress value. *)
Definition alternating (st : IntegrateRun) : Prop :=
  exists l,
    match i_pc st with
    | IEnter => l = [] /\ i_emitted st = []
    | IEmitData _ => i_emitted st = steps_from 1 l /\ i_idx st = S (length l)
    | IEmitProgress =>
        (exists s, i_emitted st = steps_from 1 l ++ [new_data s]) /\
        i_idx st = S (length l)
    | _ => i_emitted st = steps_from 1 l /\ i_idx st = length l
    end.

(** The spectra a continuous run has emitted, followed by the answer it
    holds but has not emitted yet, are the device's answers to the reads
    made since the experiment counted [r0] reads. *)
Definition device_order (r0 : nat) (st : ContinuousRun) : Prop :=
  exists n tail,
    reads (c_experiment st) = r0 + n /\
    progress_indices (c_emitted st) = [] /\
    map Returned (spectra (c_emitted st)) ++ tail = map device_read (seq r0 n) /\
    match c_pc st with
    | CEmit s => tail = [Returned s]
    | CExit (Raised x) => tail = [Raised x]
    | _ => tail = []
    end.

(** Worker steps to the exit of an integrate run whose flag is set, and the
    spectra it may still emit on that way. *)
Definition stopping_rank (st : IntegrateRun) : nat :=
  match i_pc st with
  | INext => if exp_stopped (i_experiment st) then 1 else 5
  | IEmitData _ => 4
  | IEmitProgress => 3
  | ICheck => 2
  | _ => 0
  end.

Definition stopping_pending (st : IntegrateRun) : nat :=
  match i_pc st with
  | INext => if exp_stopped (i_experiment st) then 0 else 1
  | IEmitData _ => 1
  | _ => 0
  end.

(** An integrate run past its reset, with the flag set. *)
Definition stopping (st : IntegrateRun) : Prop :=
  i_stopped st = true /\
  match i_pc st with
  | IEnter => False
  | IExit _ => True
  | _ => i_iter st <> None
  end.

(** The stored spectrum is the one curve on the plot; before the first
    spectrum both references are None and the plot is empty. *)
Definition sink_consistent (self : UserInterface) : Prop :=
  match _wavelengths self, _intensities self with
  | None, None => curves (plot_widget (ui self)) = []
  | Some w, Some i => exists sty, curves (plot_widget (ui self)) = [((w, i), sty)]
  | _, _ => False
  end.

(** A run is active: a worker runs or its [finished] signal is queued. *)
Definition busy (a : App) : bool :=
  Nat.leb 1 (running_workers (window a) + pending_finished a).

(** The buttons show whether a run is active: the start buttons are enabled
    exactly when none is, the stop button exactly when one is. *)
Definition controls_consistent (a : App) : Prop :=
  let u := ui (window a) in
  running_workers (window a) + pending_finished a <= 1 /\
  single_button u = negb (busy a) /\
  integrate_button u = negb (busy a) /\
  continuous_button u = negb (busy a) /\
  stop_button u = busy a.

(** What delivering signals leaves alone: everything but the stored
    spectrum, the plot and the value of the progress bar. *)
Definition sink_frame (self : UserInterface) :=
  (_show_lines self, experiment self,
   integrate_spectrum_worker self, continuous_spectrum_worker self,
   effects self,
   (num_integrations (ui self), single_button (ui self),
    integrate_button (ui self), continuous_button (ui self),
    stop_button (ui self)),
   (minimum (progress_bar (ui self)), maximum (progress_bar (ui self)))).

(** The stored spectrum and the plot hold spectrum [s], drawn in the style
    that [_show_lines] selects. *)
Definition shows (s : Spectrum) (self : UserInterface) : Prop :=
  _wavelengths self = Some (fst s) /\
  _intensities self = Some (snd s) /\
  plot_widget (ui self) =
    {| curves := [(s, if _show_lines self then Lines else Markers)];
       left_label := Some "Intensity"%string;
       bottom_label := Some "Wavelength (nm)"%string;
       y_min := Some 0%Z |}.

(** Two windows hold the same stored spectrum and the same plot. *)
Definition same_sink (s s' : UserInterface) : Prop :=
  _wavelengths s' = _wavelengths s /\
  _intensities s' = _intensities s /\
  plot_widget (ui s') = plot_widget (ui s).

End Wiring.

(** A window of [lab] whose stored arrays differ in length: three
    wavelengths, two intensities. *)
Definition window_uneven : @UserInterface lab :=
  with_data (env := lab)
    (Some [inject_Z 400; inject_Z 500; inject_Z 600])
    (Some [inject_Z 1; inject_Z 2])
    (fresh_window lab).


(** The first answer of the steady device. *)
Definition first_answer : @Spectrum lab :=
  ([inject_Z 400; inject_Z 500; inject_Z 600],
   [inject_Z 0; inject_Z 0; inject_Z 7]).

(** What the series of five scans yields in [lab]: the first four spectra
    and the fifth. *)
Definition five_scans : list (@Spectrum lab) :=
  drain (env := lab) 10 (exp_integrate_spectrum 5%Z) fresh_experiment.

Definition first_four : list (@Spectrum lab) := removelast five_scans.

Definition fifth_scan : @Spectrum lab := last five_scans first_answer.

(** ** Facts about the worker threads *)

Section WorkerFacts.

Context {env : Environment}.

Lemma exec_app (St : Type) (act : action -> St -> St) (a b : list action) (st : St) :
  exec act (a ++ b) st = exec act b (exec act a st).
Proof.
  revert st; induction a as [|x a IH]; intros st; simpl; [reflexivity|apply IH].
Qed.

Lemma repeat_plus (A : Type) (x : A) (m n : nat) :
  repeat x (m + n) = repeat x m ++ repeat x n.
Proof. apply repeat_app. Qed.

Lemma spectra_app (a b : list signal) : spectra (a ++ b) = spectra a ++ spectra b.
Proof.
  induction a as [|[s|i] a IH]; simpl; [reflexivity| |assumption].
  now rewrite IH.
Qed.

Lemma progress_indices_app (a b : list signal) :
  progress_indices (a ++ b) = progress_indices a ++ progress_indices b.
Proof.
  induction a as [|[s|i] a IH]; simpl; [reflexivity|assumption|].
  now rewrite IH.
Qed.

Lemma spectra_steps_from (i : nat) (l : list Spectrum) : spectra (steps_from i l) = l.
Proof.
  revert i; induction l as [|s l IH]; intros i; simpl; [reflexivity|].
  now rewrite IH.
Qed.

Lemma progress_steps_from (i : nat) (l : list Spectrum) :
  progress_indices (steps_from i l) = seq i (length l).
Proof.
  revert i; induction l as [|s l IH]; intros i; simpl; [reflexivity|].
  now rewrite IH.
Qed.

Lemma nth_steps_from (l : list Spectrum) (i j : nat) :
  j < length l ->
  nth_error (steps_from i l) (2 * j) = option_map new_data (nth_error l j) /\
  nth_error (steps_from i l) (2 * j + 1) = Some (progress_sig (i + j)).
Proof.
  revert i j; induction l as [|s l IH]; intros i j Hj; simpl in Hj; [lia|].
  destruct j as [|j].
  - simpl. now rewrite Nat.add_0_r.
  - replace (2 * S j) with (S (S (2 * j))) by lia.
    replace (S (S (2 * j)) + 1) with (S (S (2 * j + 1))) by lia.
    destruct (IH (S i) j) as [H1 H2]; [lia|].
    change (steps_from i (s :: l))
      with (new_data s :: progress_sig i :: steps_from (S i) l).
    change (nth_error (new_data s :: progress_sig i :: steps_from (S i) l)
              (S (S (2 * j))))
      with (nth_error (steps_from (S i) l) (2 * j)).
    change (nth_error (new_data s :: progress_sig i :: steps_from (S i) l)
              (S (S (2 * j + 1))))
      with (nth_error (steps_from (S i) l) (2 * j + 1)).
    change (nth_error (s :: l) (S j)) with (nth_error l j).
    split; [exact H1|].
    rewrite H2. f_equal. f_equal. lia.
Qed.

(** *** The integrate run *)


(** The loop, entered at the [for] with the flag clear and never disturbed,
    walks through everything the generator yields. *)
Lemma integrate_loop_undisturbed (l : list Spectrum) :
  forall (g : generator) (e : Experiment) (c : Z) (idx : nat) (em : list signal),
    yields g e l ->
    let st' :=
      exec integrate_act (repeat Tick (4 * length l + 1))
        {| i_stopped := false; i_count := c; i_experiment := e;
           i_iter := Some g; i_idx := idx; i_pc := INext; i_emitted := em |} in
    i_pc st' = IExit (Returned tt) /\
    i_emitted st' = em ++ steps_from (S idx) l.
Proof.
  induction l as [|s l IH]; intros g e c idx em Hy; simpl in Hy.
  - destruct Hy as [e' He']. simpl. unfold integrate_tick; simpl.
    rewrite He'. simpl. now rewrite app_nil_r.
  - destruct Hy as (g' & e' & Hn & Hy).
    replace (4 * length (s :: l) + 1) with (4 + (4 * length l + 1)) by (simpl; lia).
    rewrite repeat_plus, exec_app.
    set (m := 4 * length l + 1) in *.
    simpl repeat. simpl exec at 2.
    unfold integrate_tick at 4; simpl. rewrite Hn.
    unfold integrate_tick; simpl. fold integrate_tick.
    destruct (IH g' e' c (S idx) ((em ++ [new_data s]) ++ [progress_sig (S idx)]) Hy)
      as [H1 H2].
    split; [exact H1|].
    rewrite H2. rewrite <- !app_assoc. reflexivity.
Qed.

Lemma exec_ticks_exit_integrate (n m : nat) (st : IntegrateRun) (o : outcome unit) :
  i_pc (exec integrate_act (repeat Tick n) st) = IExit o ->
  n <= m ->
  exec integrate_act (repeat Tick m) st = exec integrate_act (repeat Tick n) st.
Proof.
  intros Ho Hle.
  replace m with (n + (m - n)) by lia.
  rewrite repeat_plus, exec_app.
  generalize dependent (exec integrate_act (repeat Tick n) st).
  intros st' Ho.
  assert (Htick : integrate_tick st' = st') by (unfold integrate_tick; now rewrite Ho).
  induction (m - n) as [|d IH]; [reflexivity|].
  change (exec integrate_act (repeat Tick (S d)) st')
    with (exec integrate_act (repeat Tick d) (integrate_tick st')).
  now rewrite Htick.
Qed.

(** C1. For every scan count k, if the generator of the progressive
    averaging yields k spectra and the schedule holds no stop request, a
    run of the integrate worker (given the 4k+2 steps it needs) returns
    having emitted exactly those k spectra and the progress values 1..k,
    interleaved as spectrum 1, progress 1, spectrum 2, progress 2, ...:
    the j-th spectrum sits at position 2j and its progress value j+1 right
    after it. *)
Theorem integrate_run_emits_k (k : nat) (l : list Spectrum) (flag : bool)
    (e : Experiment) (n : nat) :
  length l = k ->
  yields (exp_integrate_spectrum (Z.of_nat k)) e l ->
  4 * k + 2 <= n ->
  let st := exec integrate_act (repeat Tick n) (integrate_start flag (Z.of_nat k) e) in
  i_pc st = IExit (Returned tt) /\
  i_emitted st = steps_from 1 l /\
  spectra (i_emitted st) = l /\
  length (spectra (i_emitted st)) = k /\
  progress_indices (i_emitted st) = seq 1 k /\
  (forall j, j < k ->
     nth_error (i_emitted st) (2 * j) = option_map new_data (nth_error l j) /\
     nth_error (i_emitted st) (2 * j + 1) = Some (progress_sig (S j))).
Proof.
  intros Hlen Hy Hn st.
  assert (Hrun :
    i_pc (exec integrate_act (repeat Tick (4 * k + 2)) (integrate_start flag (Z.of_nat k) e))
      = IExit (Returned tt) /\
    i_emitted (exec integrate_act (repeat Tick (4 * k + 2)) (integrate_start flag (Z.of_nat k) e))
      = steps_from 1 l).
  { replace (4 * k + 2) with (1 + (4 * length l + 1)) by lia.
    rewrite repeat_plus, exec_app.
    change (exec integrate_act (repeat Tick 1) (integrate_start flag (Z.of_nat k) e))
      with {| i_stopped := false; i_count := Z.of_nat k; i_experiment := e;
              i_iter := Some (exp_integrate_spectrum (Z.of_nat k));
              i_idx := 0; i_pc := INext; i_emitted := [] |}.
    exact (integrate_loop_undisturbed l _ e (Z.of_nat k) 0 [] Hy). }
  destruct Hrun as [Hpc Hem].
  assert (Hst : st = exec integrate_act (repeat Tick (4 * k + 2))
                       (integrate_start flag (Z.of_nat k) e)).
  { unfold st. eapply exec_ticks_exit_integrate; eauto. }
  rewrite Hst, Hpc, Hem.
  repeat split.
  - apply spectra_steps_from.
  - now rewrite spectra_steps_from.
  - rewrite progress_steps_from. now rewrite Hlen.
  - apply nth_steps_from. lia.
  - destruct (nth_steps_from l 1 (j := j)) as [_ H2]; [lia|]. exact H2.
Qed.

Lemma integrate_inv_act (a : action) (st : IntegrateRun) :
  integrate_inv st -> integrate_inv (integrate_act a st).
Proof.
  unfold integrate_inv. destruct a; simpl.
  - unfold integrate_tick.
    destruct (i_pc st) eqn:Hpc; simpl; intros H.
    + rewrite H. simpl. split; [reflexivity|discriminate].
    + destruct H as [H Hit].
      destruct (i_iter st) as [g|] eqn:Hg; [|congruence].
      destruct (next g (i_experiment st)); simpl; auto.
      split; [now rewrite H|discriminate].
    + destruct H as [H Hit]. rewrite spectra_app, length_app. simpl.
      split; [lia|assumption].
    + destruct H as [H Hit]. rewrite spectra_app, length_app. simpl.
      split; [lia|assumption].
    + assumption.
    + rewrite Hpc. exact I.
  - destruct (i_pc st); auto.
Qed.

Lemma integrate_inv_exec (sched : list action) (st : IntegrateRun) :
  integrate_inv st -> integrate_inv (exec integrate_act sched st).
Proof.
  revert st; induction sched as [|a sched IH]; intros st H; simpl; [assumption|].
  apply IH, integrate_inv_act, H.
Qed.

Lemma winding_down_act (Hstop : honours_stop) (a : action) (st : IntegrateRun) :
  winding_down st ->
  winding_down (integrate_act a st) /\
  i_emitted (integrate_act a st) = i_emitted st /\
  i_idx (integrate_act a st) = i_idx st /\
  reads (i_experiment (integrate_act a st)) = reads (i_experiment st) /\
  integrate_rank (integrate_act a st) =
    (if is_tick a then pred (integrate_rank st) else integrate_rank st).
Proof.
  intros [Hit H]. unfold winding_down, integrate_rank.
  destruct a; simpl.
  - unfold integrate_tick.
    destruct H as [[Hpc Hf]|[[Hpc Hs]|Hpc]]; rewrite Hpc; simpl.
    + rewrite Hf. simpl. repeat split; auto.
    + destruct (i_iter st) as [g|] eqn:Hg; [|congruence].
      rewrite (Hstop g _ Hs). simpl.
      repeat split; auto.
    + rewrite Hpc. repeat split; auto.
  - repeat split; auto.
    destruct H as [[Hpc Hf]|[[Hpc Hs]|Hpc]]; auto.
Qed.

Lemma winding_down_exec (Hstop : honours_stop) (sched : list action) (st : IntegrateRun) :
  winding_down st ->
  let st' := exec integrate_act sched st in
  winding_down st' /\
  i_emitted st' = i_emitted st /\
  i_idx st' = i_idx st /\
  reads (i_experiment st') = reads (i_experiment st) /\
  integrate_rank st' = integrate_rank st - ticks sched.
Proof.
  revert st; induction sched as [|a sched IH]; intros st H; simpl.
  - split; [assumption|]. do 3 (split; [reflexivity|]).
    unfold ticks; simpl. lia.
  - destruct (winding_down_act Hstop a H) as (Hw & He & Hi & Hr & Hk).
    destruct (IH _ Hw) as (Hw' & He' & Hi' & Hr' & Hk').
    split; [assumption|]. do 3 (split; [congruence|]).
    rewrite Hk', Hk. unfold ticks. simpl.
    destruct a; simpl; lia.
Qed.

(** C2. In an integrate run over a generator that honours the stop
    contract, let the check after step i find the worker's flag set.
    Whatever the schedule does afterwards, no further hardware read
    happens, nothing more is emitted (the run's spectra number exactly i,
    hence at most i, and the index stays i), and two more worker steps
    take the worker out of its loop, whatever the scan count. *)
Theorem integrate_stop_observed (c : Z) (flag : bool) (e : Experiment)
    (before after : list action) (i : nat) :
  honours_stop ->
  let st := exec integrate_act before (integrate_start flag c e) in
  i_pc st = ICheck ->
  i_idx st = i ->
  i_stopped st = true ->
  let st' := exec integrate_act after st in
  reads (i_experiment st') = reads (i_experiment st) /\
  i_emitted st' = i_emitted st /\
  length (spectra (i_emitted st')) = i /\
  i_idx st' = i /\
  (2 <= ticks after -> i_pc st' = IExit (Returned tt)).
Proof.
  intros Hstop st Hpc Hidx Hflag st'.
  assert (Hinv : integrate_inv st).
  { apply integrate_inv_exec. reflexivity. }
  unfold integrate_inv in Hinv. rewrite Hpc in Hinv. destruct Hinv as [Hlen Hit].
  assert (Hw : winding_down st) by (split; auto).
  destruct (winding_down_exec Hstop after Hw) as (Hw' & He & Hi & Hr & Hk).
  fold st' in Hw', He, Hi, Hr, Hk.
  do 4 (split; [congruence|]).
  intros Ht.
  unfold integrate_rank in Hk. rewrite Hpc in Hk.
  destruct Hw' as [_ [[Hp _]|[[Hp _]|Hp]]]; [| |exact Hp];
    rewrite Hp in Hk; exfalso; lia.
Qed.

(** *** The continuous run *)

Lemma continuous_inv_act (a : action) (st : ContinuousRun) :
  continuous_inv st -> continuous_inv (continuous_act a st).
Proof.
  unfold continuous_inv. destruct a; simpl; [|trivial].
  unfold continuous_tick.
  destruct (c_pc st) as [| |s| |o] eqn:Hpc; simpl; intros H; auto.
  - unfold get_spectrum, hardware_read.
    destruct (device_read (reads (c_experiment st))); simpl; exact I.
  - rewrite spectra_app. simpl. intros Hnil.
    apply app_eq_nil in Hnil. destruct Hnil as [_ Hnil]. discriminate.
  - destruct (c_stopped st); simpl; auto.
  - rewrite Hpc. exact H.
Qed.

Lemma continuous_inv_exec (sched : list action) (st : ContinuousRun) :
  continuous_inv st -> continuous_inv (exec continuous_act sched st).
Proof.
  revert st; induction sched as [|a sched IH]; intros st H; simpl; [assumption|].
  apply IH, continuous_inv_act, H.
Qed.

(** With a working device and no stop request the loop goes on. *)
Lemma continuous_tick_in_loop (Hdev : device_never_fails) (st : ContinuousRun) :
  c_stopped st = false -> c_pc st = CEnter \/ in_loop st ->
  c_stopped (continuous_tick st) = false /\ in_loop (continuous_tick st).
Proof.
  unfold in_loop, continuous_tick. intros Hf H.
  destruct (c_pc st) as [| |s| |o] eqn:Hpc; simpl; auto.
  - unfold get_spectrum, hardware_read.
    destruct (Hdev (reads (c_experiment st))) as [s Hs]. rewrite Hs. simpl. auto.
  - rewrite Hf. simpl. auto.
  - destruct H as [H|H]; [discriminate|contradiction].
Qed.

Lemma continuous_keeps_running (Hdev : device_never_fails) (flag : bool)
    (e : Experiment) (m : nat) :
  let st := exec continuous_act (repeat Tick (S m)) (continuous_start flag e) in
  c_stopped st = false /\ in_loop st.
Proof.
  induction m as [|m IH].
  - simpl. split; [reflexivity|exact I].
  - cbv zeta in *.
    change (S (S m)) with (1 + S m). rewrite Nat.add_comm.
    rewrite repeat_plus, exec_app. simpl repeat at 2. simpl exec at 1.
    destruct IH as [Hf Hl].
    apply continuous_tick_in_loop; auto.
Qed.

(** A continuous run whose flag is set, somewhere in its loop or past its
    normal exit. *)
Lemma continuous_stopping_act (Hdev : device_never_fails) (a : action)
    (st : ContinuousRun) :
  c_stopped st = true ->
  in_loop st \/ c_pc st = CExit (Returned tt) ->
  let st' := continuous_act a st in
  c_stopped st' = true /\
  (in_loop st' \/ c_pc st' = CExit (Returned tt)) /\
  length (spectra (c_emitted st')) + continuous_pending st' =
    length (spectra (c_emitted st)) + continuous_pending st /\
  continuous_rank st' =
    (if is_tick a then pred (continuous_rank st) else continuous_rank st).
Proof.
  intros Hf H. destruct a; simpl.
  - unfold in_loop, continuous_pending, continuous_rank, continuous_tick in *.
    destruct (c_pc st) as [| |s| |o] eqn:Hpc; simpl.
    + destruct H as [H|H]; [contradiction|discriminate].
    + unfold get_spectrum, hardware_read.
      destruct (Hdev (reads (c_experiment st))) as [s Hs]. rewrite Hs. simpl. auto.
    + rewrite spectra_app, length_app. simpl. repeat split; auto; lia.
    + rewrite Hf. simpl. auto.
    + rewrite Hpc. destruct H as [H|H]; [contradiction|]. auto.
  - unfold in_loop, continuous_pending, continuous_rank in *. simpl. auto.
Qed.

Lemma continuous_stopping_exec (Hdev : device_never_fails) (sched : list action)
    (st : ContinuousRun) :
  c_stopped st = true ->
  in_loop st \/ c_pc st = CExit (Returned tt) ->
  let st' := exec continuous_act sched st in
  (in_loop st' \/ c_pc st' = CExit (Returned tt)) /\
  length (spectra (c_emitted st')) + continuous_pending st' =
    length (spectra (c_emitted st)) + continuous_pending st /\
  continuous_rank st' = continuous_rank st - ticks sched.
Proof.
  revert st; induction sched as [|a sched IH]; intros st Hf H; simpl.
  - split; [assumption|]. split; [reflexivity|]. unfold ticks; simpl. lia.
  - destruct (continuous_stopping_act Hdev a st Hf H) as (Hf' & H' & Hp & Hk).
    destruct (IH _ Hf' H') as (H'' & Hp' & Hk').
    split; [assumption|]. split; [congruence|].
    rewrite Hk', Hk. unfold ticks. simpl.
    destruct a; simpl; lia.
Qed.

(** A stop request made before [run] has executed its first statement is
    overwritten by the reset: the run then behaves as if it had never
    been made. *)
Lemma stop_before_reset_is_lost (flag : bool) (e : Experiment) (sched : list action) :
  exec continuous_act (Stop :: Tick :: sched) (continuous_start flag e) =
  exec continuous_act (Tick :: sched) (continuous_start flag e).
Proof. reflexivity. Qed.

(** C4, as the code has it.  Take a continuous run on a device whose reads
    succeed, and let the first stop request arrive after the run has
    executed m+1 statements (the first of which is the reset of the flag);
    let the worker make at least three more steps.  Then the run returns
    (it is finite), it has emitted at least one spectrum, at most one
    spectrum is emitted after the stop request, and at no point up to the
    stop request had the run ended. *)
Theorem continuous_run_stopped (flag : bool) (e : Experiment) (m : nat)
    (after : list action) :
  device_never_fails ->
  3 <= ticks after ->
  let at_stop := exec continuous_act (repeat Tick (S m)) (continuous_start flag e) in
  let final :=
    exec continuous_act (repeat Tick (S m) ++ Stop :: after) (continuous_start flag e) in
  c_pc final = CExit (Returned tt) /\
  spectra (c_emitted final) <> [] /\
  length (spectra (c_emitted final)) <= length (spectra (c_emitted at_stop)) + 1 /\
  (forall j o, j <= S m ->
     c_pc (exec continuous_act (repeat Tick j) (continuous_start flag e)) <> CExit o).
Proof.
  intros Hdev Ht at_stop final.
  destruct (continuous_keeps_running Hdev flag e m) as [Hf Hl].
  fold at_stop in Hf, Hl.
  assert (Hfinal : final = exec continuous_act after (continuous_stop at_stop)).
  { unfold final. now rewrite exec_app. }
  assert (Hl' : in_loop (continuous_stop at_stop) \/
                c_pc (continuous_stop at_stop) = CExit (Returned tt)).
  { left. exact Hl. }
  destruct (continuous_stopping_exec Hdev after (continuous_stop at_stop)
              eq_refl Hl') as (H & Hp & Hk).
  rewrite <- Hfinal in H, Hp, Hk.
  assert (Hexit : c_pc final = CExit (Returned tt)).
  { destruct H as [H|H]; [|exact H]. exfalso.
    unfold in_loop, continuous_rank in *. simpl in Hk.
    destruct (c_pc final), (c_pc at_stop); try contradiction; lia. }
  split; [exact Hexit|]. split; [|split].
  - assert (Hinv : continuous_inv final).
    { unfold final. apply continuous_inv_exec. exact I. }
    unfold continuous_inv in Hinv. now rewrite Hexit in Hinv.
  - simpl in Hp. unfold continuous_pending in Hp. simpl in Hp. rewrite Hexit in Hp.
    destruct (c_pc at_stop); lia.
  - intros j o Hj Ho. destruct j as [|j]; [discriminate|].
    destruct (continuous_keeps_running Hdev flag e j) as [_ Hlj].
    unfold in_loop in Hlj. now rewrite Ho in Hlj.
Qed.

(** *** The stop flag *)

Section FlagTrace.

Variable St : Type.
Variable flag : St -> bool.
Variable act : action -> St -> St.
Variable past_reset : St -> Prop.

Hypothesis past_reset_act : forall a st, past_reset st -> past_reset (act a st).
Hypothesis tick_keeps_flag : forall st, past_reset st -> flag (act Tick st) = flag st.
Hypothesis stop_sets_flag : forall st, flag (act Stop st) = true.

Lemma transitions_trace (a b x : bool) (sched : list action) (st : St) :
  transitions a b (x :: flag_trace flag act sched st) =
  (if Bool.eqb x a && Bool.eqb (flag st) b then 1 else 0) +
  transitions a b (flag_trace flag act sched st).
Proof. destruct sched; reflexivity. Qed.

Lemma flag_stays_set (sched : list action) (st : St) :
  past_reset st -> flag st = true ->
  transitions false true (flag_trace flag act sched st) = 0 /\
  transitions true false (flag_trace flag act sched st) = 0.
Proof.
  revert st; induction sched as [|a sched IH]; intros st Hp Hf; [split; reflexivity|].
  change (flag_trace flag act (a :: sched) st)
    with (flag st :: flag_trace flag act sched (act a st)).
  assert (Hf' : flag (act a st) = true).
  { destruct a; [rewrite tick_keeps_flag; assumption|apply stop_sets_flag]. }
  rewrite !transitions_trace, Hf, Hf'. simpl.
  apply IH; auto.
Qed.

Lemma flag_rises_once (sched : list action) (st : St) :
  past_reset st ->
  transitions false true (flag_trace flag act sched st) <= 1 /\
  transitions true false (flag_trace flag act sched st) = 0.
Proof.
  revert st; induction sched as [|a sched IH]; intros st Hp; [split; simpl; lia|].
  change (flag_trace flag act (a :: sched) st)
    with (flag st :: flag_trace flag act sched (act a st)).
  rewrite !transitions_trace.
  destruct (flag st) eqn:Hf.
  - assert (Hf' : flag (act a st) = true).
    { destruct a; [rewrite tick_keeps_flag; assumption|apply stop_sets_flag]. }
    destruct (flag_stays_set sched (past_reset_act a Hp) Hf') as [H1 H2].
    rewrite Hf', H1, H2. simpl. lia.
  - destruct (flag (act a st)) eqn:Hf'.
    + destruct (flag_stays_set sched (past_reset_act a Hp) Hf') as [H1 H2].
      rewrite H1, H2. simpl. lia.
    + simpl. apply IH. auto.
Qed.

Lemma flag_clear_without_stop (n : nat) (st : St) :
  past_reset st -> flag st = false ->
  Forall (eq false) (flag_trace flag act (repeat Tick n) st).
Proof.
  revert st; induction n as [|n IH]; intros st Hp Hf; simpl.
  - constructor; auto.
  - constructor; [auto|]. apply IH; auto.
    rewrite tick_keeps_flag; auto.
Qed.

End FlagTrace.

Lemma integrate_past_reset_act (a : action) (st : IntegrateRun) :
  i_pc st <> IEnter -> i_pc (integrate_act a st) <> IEnter.
Proof.
  destruct a; simpl; [|trivial].
  unfold integrate_tick. destruct (i_pc st) eqn:Hpc; simpl; try discriminate.
  - destruct (i_iter st) as [g|]; [|now rewrite Hpc].
    destruct (next g (i_experiment st)); simpl; discriminate.
  - now rewrite Hpc.
Qed.

Lemma integrate_tick_keeps_flag (st : IntegrateRun) :
  i_pc st <> IEnter -> i_stopped (integrate_act Tick st) = i_stopped st.
Proof.
  simpl. unfold integrate_tick. destruct (i_pc st) eqn:Hpc; simpl; try reflexivity.
  - congruence.
  - destruct (i_iter st) as [g|]; [|reflexivity].
    destruct (next g (i_experiment st)); reflexivity.
Qed.

Lemma continuous_past_reset_act (a : action) (st : ContinuousRun) :
  c_pc st <> CEnter -> c_pc (continuous_act a st) <> CEnter.
Proof.
  destruct a; simpl; [|trivial].
  unfold continuous_tick. destruct (c_pc st) eqn:Hpc; simpl; try discriminate.
  - unfold get_spectrum, hardware_read.
    destruct (device_read (reads (c_experiment st))); simpl; discriminate.
  - destruct (c_stopped st); discriminate.
  - now rewrite Hpc.
Qed.

Lemma continuous_tick_keeps_flag (st : ContinuousRun) :
  c_pc st <> CEnter -> c_stopped (continuous_act Tick st) = c_stopped st.
Proof.
  simpl. unfold continuous_tick. destruct (c_pc st) eqn:Hpc; simpl; try reflexivity.
  - congruence.
  - unfold get_spectrum, hardware_read.
    destruct (device_read (reads (c_experiment st))); reflexivity.
Qed.

(** C7. In a run of either worker the first statement sets the flag to
    false.  From then on, along every schedule of worker steps and stop()
    calls, the flag steps from false to true at most once and never from
    true to false; along a schedule without stop() calls it stays false. *)
Theorem stop_flag_per_run (flag : bool) (c : Z) (e : Experiment)
    (sched : list action) (n : nat) :
  let i1 := integrate_tick (integrate_start flag c e) in
  let c1 := continuous_tick (continuous_start flag e) in
  (i_stopped i1 = false /\ c_stopped c1 = false) /\
  (transitions false true (flag_trace i_stopped integrate_act sched i1) <= 1 /\
   transitions false true (flag_trace c_stopped continuous_act sched c1) <= 1) /\
  (transitions true false (flag_trace i_stopped integrate_act sched i1) = 0 /\
   transitions true false (flag_trace c_stopped continuous_act sched c1) = 0) /\
  (Forall (eq false) (flag_trace i_stopped integrate_act (repeat Tick n) i1) /\
   Forall (eq false) (flag_trace c_stopped continuous_act (repeat Tick n) c1)).
Proof.
  intros i1 c1.
  assert (Hi : i_pc i1 <> IEnter) by discriminate.
  assert (Hc : c_pc c1 <> CEnter) by discriminate.
  destruct (flag_rises_once i_stopped integrate_act (fun st => i_pc st <> IEnter)
              integrate_past_reset_act integrate_tick_keeps_flag
              (fun _ => eq_refl) sched i1 Hi) as [Hi1 Hi2].
  destruct (flag_rises_once c_stopped continuous_act (fun st => c_pc st <> CEnter)
              continuous_past_reset_act continuous_tick_keeps_flag
              (fun _ => eq_refl) sched c1 Hc) as [Hc1 Hc2].
  repeat split; auto.
  - apply (flag_clear_without_stop i_stopped integrate_act (fun st => i_pc st <> IEnter)
             integrate_past_reset_act integrate_tick_keeps_flag); auto.
  - apply (flag_clear_without_stop c_stopped continuous_act (fun st => c_pc st <> CEnter)
             continuous_past_reset_act continuous_tick_keeps_flag); auto.
Qed.

End WorkerFacts.

(** ** Facts about the main window *)

Section WindowFacts.

Context {env : Environment}.

(** C9. In every state, [toggle_lines_markers] flips [_show_lines] and then
    calls [plot_data] without arguments; the call raises [TypeError] before
    the body of [plot_data] runs, so the slot always leaves by that
    exception, with nothing changed but the flipped flag. *)
Theorem toggle_lines_markers_raises (self : UserInterface) :
  toggle_lines_markers self =
    (Raised TypeError, with_show_lines (negb (_show_lines self)) self) /\
  call_plot_data [] self = (Raised TypeError, self).
Proof. split; reflexivity. Qed.

(** C10. With no spectrum stored (either reference is None), [save_data]
    returns after showing the warning box: no file is written and the
    window is as before, the stored references included. *)
Theorem save_data_without_data (self : UserInterface) (path : string) (opens : bool) :
  _wavelengths self = None \/ _intensities self = None ->
  let r := save_data path opens self in
  fst r = Returned tt /\
  snd r = with_effect
            (warning_box "No data" "Perform a measurement before saving.") self /\
  files_written (effects (snd r)) = files_written (effects self) /\
  _wavelengths (snd r) = _wavelengths self /\
  _intensities (snd r) = _intensities self.
Proof.
  intros H.
  assert (E : save_data path opens self =
              (Returned tt,
               with_effect
                 (warning_box "No data" "Perform a measurement before saving.") self)).
  { unfold save_data, bind, gets, modify. simpl.
    destruct H as [H|H]; rewrite H; [reflexivity|].
    destruct (_wavelengths self); reflexivity. }
  cbv zeta. rewrite E. simpl.
  repeat split.
  induction (effects self) as [|x l IH]; simpl; [reflexivity|].
  destruct x; simpl; congruence.
Qed.

Lemma files_written_app (a b : list effect) :
  files_written (a ++ b) = files_written a ++ files_written b.
Proof.
  induction a as [|x a IH]; simpl; [reflexivity|].
  destruct x; simpl; congruence.
Qed.

Lemma csv_rows_nth (ws ins : NDArray) (j : nat) (w i : sample) :
  nth_error ws j = Some w -> nth_error ins j = Some i ->
  nth_error (csv_rows ws ins) j = Some [str w; str i].
Proof.
  unfold csv_rows. revert ins j.
  induction ws as [|w0 ws IH]; intros ins j Hw Hi.
  - destruct j; discriminate.
  - destruct ins as [|i0 ins]; [destruct j; discriminate|].
    destruct j as [|j]; simpl in *.
    + now inversion Hw; inversion Hi; subst.
    + apply IH; assumption.
Qed.

(** C8. With a stored spectrum of n wavelengths and n intensities, and the
    chosen file opening, [save_data] writes to that file a table whose
    first row is the header (Wavelength (nm), Intensity) and whose next n
    rows are, in order, the j-th wavelength and the j-th intensity; every
    row has two cells. *)
Theorem save_data_table (self : UserInterface) (ws ins : NDArray) (n : nat)
    (path : string) :
  _wavelengths self = Some ws ->
  _intensities self = Some ins ->
  length ws = n ->
  length ins = n ->
  let r := save_data path true self in
  let rows := csv_rows ws ins in
  fst r = Returned tt /\
  files_written (effects (snd r)) =
    files_written (effects self) ++ [(path, csv_header :: rows)] /\
  csv_header = ["Wavelength (nm)"%string; "Intensity"%string] /\
  length rows = n /\
  Forall (fun row => length row = 2) (csv_header :: rows) /\
  (forall j, j < n ->
     exists w i, nth_error ws j = Some w /\ nth_error ins j = Some i /\
                 nth_error rows j = Some [str w; str i]).
Proof.
  intros Hw Hi Hlw Hli r rows.
  assert (E : r = (Returned tt,
                   with_effect
                     (information_box "Data saved"
                        ("Data saved successfully to " ++ path ++ ".")%string)
                     (with_effect (file_written path (csv_header :: rows)) self))).
  { unfold r, save_data, bind, gets, modify. simpl. rewrite Hw, Hi. reflexivity. }
  rewrite E. simpl.
  split; [reflexivity|]. split.
  { rewrite !files_written_app. simpl. now rewrite app_nil_r. }
  split; [reflexivity|]. split.
  { unfold rows, csv_rows. rewrite length_map, length_combine. lia. }
  split.
  { constructor; [reflexivity|].
    unfold rows, csv_rows. apply Forall_map. apply Forall_forall. reflexivity. }
  intros j Hj.
  destruct (nth_error ws j) as [w|] eqn:Ew.
  2:{ apply nth_error_None in Ew. lia. }
  destruct (nth_error ins j) as [i|] eqn:Ei.
  2:{ apply nth_error_None in Ei. lia. }
  exists w, i. repeat split. apply csv_rows_nth; assumption.
Qed.

(** C5, as the code has it. [stop_measurement] never raises.  With no
    worker running it sets the [stopped] attribute of the idle integrate
    worker and changes nothing else (experiment, continuous worker,
    widgets and stored spectrum are as before); the next integrate run
    clears that attribute in its first statement, so the run is the same
    whether or not the call was made.  With the continuous worker running
    it sets that worker's flag (and the progress bar's range) and leaves
    the integrate worker alone; with only the integrate worker running it
    sets that worker's flag and leaves the continuous worker alone. *)
Theorem stop_measurement_routes (self : UserInterface) :
  fst (stop_measurement self) = Returned tt /\
  (running_workers self = 0 ->
     snd (stop_measurement self) = with_integrate_worker stop self /\
     stopped (integrate_spectrum_worker (snd (stop_measurement self))) = true /\
     forall c e,
       integrate_tick (integrate_start true c e) =
       integrate_tick (integrate_start (stopped (integrate_spectrum_worker self)) c e)) /\
  (isRunning (continuous_spectrum_worker self) = true ->
     stopped (continuous_spectrum_worker (snd (stop_measurement self))) = true /\
     integrate_spectrum_worker (snd (stop_measurement self)) =
       integrate_spectrum_worker self /\
     experiment (snd (stop_measurement self)) = experiment self) /\
  (isRunning (continuous_spectrum_worker self) = false ->
     isRunning (integrate_spectrum_worker self) = true ->
     stopped (integrate_spectrum_worker (snd (stop_measurement self))) = true /\
     continuous_spectrum_worker (snd (stop_measurement self)) =
       continuous_spectrum_worker self /\
     experiment (snd (stop_measurement self)) = experiment self).
Proof.
  unfold stop_measurement, bind, gets, modify, setRange, running_workers.
  simpl.
  destruct (isRunning (continuous_spectrum_worker self)) eqn:Hc; simpl.
  - split; [reflexivity|]. split; [|split].
    + destruct (isRunning (integrate_spectrum_worker self)); discriminate.
    + auto.
    + discriminate.
  - split; [reflexivity|]. split; [|split].
    + intros _. auto.
    + discriminate.
    + auto.
Qed.

(** *** Mutual exclusion of the workers *)

Lemma same_controls_inv (a a' : App) :
  same_controls (window a) (window a') ->
  pending_finished a' = pending_finished a ->
  app_inv a -> app_inv a'.
Proof.
  unfold same_controls, app_inv, running_workers.
  intros (H1 & H2 & H3 & H4 & H5) Hp. rewrite H1, H2, H3, H4, H5, Hp. trivial.
Qed.

Lemma same_controls_run_slot (m : method unit) (a : App) :
  same_controls (window a) (snd (m (window a))) ->
  app_inv a -> app_inv (run_slot m a).
Proof.
  intros H. apply same_controls_inv; [exact H|reflexivity].
Qed.

Lemma single_measurement_controls (self : UserInterface) :
  same_controls self (snd (single_measurement self)).
Proof.
  unfold same_controls, single_measurement, bind, experiment_get_spectrum,
    get_spectrum, hardware_read, setRange, modify. simpl.
  destruct (device_read (reads (experiment self))); simpl; repeat split; reflexivity.
Qed.

Lemma stop_measurement_controls (self : UserInterface) :
  same_controls self (snd (stop_measurement self)).
Proof.
  unfold same_controls, stop_measurement, bind, gets, modify, setRange. simpl.
  destruct (isRunning (continuous_spectrum_worker self)) eqn:E; simpl;
    repeat split; congruence.
Qed.

Lemma toggle_lines_markers_controls (self : UserInterface) :
  same_controls self (snd (toggle_lines_markers self)).
Proof. unfold same_controls. simpl. repeat split; reflexivity. Qed.

Lemma save_data_controls (path : string) (opens : bool) (self : UserInterface) :
  same_controls self (snd (save_data path opens self)).
Proof.
  unfold same_controls, save_data, bind, gets, modify. simpl.
  destruct (_wavelengths self), (_intensities self), opens; simpl; repeat split; reflexivity.
Qed.

Lemma plot_new_data_controls (w i : NDArray) (self : UserInterface) :
  same_controls self (snd (plot_new_data w i self)).
Proof. unfold same_controls. simpl. repeat split; reflexivity. Qed.

Lemma fire_keeps_inv (ev : event) (a a' : App) :
  app_inv a -> fire ev a = Some a' -> app_inv a'.
Proof.
  intros Hinv Hf.
  destruct ev; simpl in Hf; unfold on_click in Hf.
  - destruct (single_button (ui (window a))); [|discriminate].
    inversion Hf; subst. apply same_controls_run_slot; auto.
    apply single_measurement_controls.
  - destruct (integrate_button (ui (window a))) eqn:Hb; [|discriminate].
    inversion Hf; subst. clear Hf.
    unfold app_inv, running_workers in *. simpl in *.
    destruct Hinv as [H1 H2].
    destruct (isRunning (integrate_spectrum_worker (window a)));
      destruct (isRunning (continuous_spectrum_worker (window a)));
      destruct (pending_finished a); simpl in *;
      try (destruct H1 as (_ & Hc & _); [lia|congruence]).
    split; [auto|lia].
  - destruct (continuous_button (ui (window a))) eqn:Hb; [|discriminate].
    inversion Hf; subst. clear Hf.
    unfold app_inv, running_workers in *. simpl in *.
    destruct Hinv as [H1 H2].
    destruct (isRunning (integrate_spectrum_worker (window a)));
      destruct (isRunning (continuous_spectrum_worker (window a)));
      destruct (pending_finished a); simpl in *;
      try (destruct H1 as (_ & _ & Hc); [lia|congruence]).
    split; [auto|lia].
  - destruct (stop_button (ui (window a))); [|discriminate].
    inversion Hf; subst. apply same_controls_run_slot; auto.
    apply stop_measurement_controls.
  - inversion Hf; subst. apply same_controls_run_slot; auto.
    apply toggle_lines_markers_controls.
  - inversion Hf; subst. apply same_controls_run_slot; auto.
    apply save_data_controls.
  - inversion Hf; subst. apply same_controls_run_slot; auto.
    unfold same_controls. simpl. repeat split; reflexivity.
  - inversion Hf; subst. apply same_controls_run_slot; auto.
    apply plot_new_data_controls.
  - inversion Hf; subst. apply same_controls_run_slot; auto.
    unfold same_controls. simpl. repeat split; reflexivity.
  - destruct (isRunning (integrate_spectrum_worker (window a))) eqn:Hr; [|discriminate].
    inversion Hf; subst. clear Hf.
    unfold app_inv, running_workers in *. simpl in *. rewrite Hr in Hinv.
    destruct Hinv as [H1 H2].
    split; [intros _; apply H1; lia|].
    destruct (isRunning (continuous_spectrum_worker (window a))); simpl in *; lia.
  - destruct (isRunning (continuous_spectrum_worker (window a))) eqn:Hr; [|discriminate].
    inversion Hf; subst. clear Hf.
    unfold app_inv, running_workers in *. simpl in *. rewrite Hr in Hinv.
    destruct Hinv as [H1 H2].
    split; [intros _; apply H1; lia|].
    destruct (isRunning (integrate_spectrum_worker (window a))); simpl in *; lia.
  - destruct (pending_finished a) as [|n] eqn:Hp; [discriminate|].
    inversion Hf; subst. clear Hf.
    unfold app_inv, running_workers in *. simpl in *.
    destruct Hinv as [H1 H2].
    split; [intros Hn; exfalso; lia|lia].
Qed.

Lemma fire_all_keeps_inv (evs : list event) (a a' : App) :
  app_inv a -> fire_all evs a = Some a' -> app_inv a'.
Proof.
  revert a; induction evs as [|ev evs IH]; intros a Hinv Hf; simpl in Hf.
  - now inversion Hf; subst.
  - destruct (fire ev a) as [a1|] eqn:E; [|discriminate].
    eapply IH; [|exact Hf]. eapply fire_keeps_inv; eauto.
Qed.

(** C3, as the code has it.  The start slots do not look at the workers
    and never raise: mutual exclusion rests on the buttons.  From any
    state with no worker running and no [finished] signal queued, after
    any sequence of events of the event loop at most one worker is
    running, and while one is running the clicks on the three start
    buttons (single, integrate, continuous) are not delivered. *)
Theorem one_worker_at_a_time (a0 a : App) (evs : list event) :
  running_workers (window a0) = 0 ->
  pending_finished a0 = 0 ->
  fire_all evs a0 = Some a ->
  running_workers (window a) <= 1 /\
  (1 <= running_workers (window a) ->
     fire click_single a = None /\
     fire click_integrate a = None /\
     fire click_continuous a = None) /\
  fst (integrate_spectrum (window a)) = Returned tt /\
  fst (continuous_spectrum (window a)) = Returned tt.
Proof.
  intros Hr Hp Hf.
  assert (Hinv0 : app_inv a0).
  { unfold app_inv. rewrite Hr, Hp. simpl. split; [lia|lia]. }
  pose proof (fire_all_keeps_inv evs Hinv0 Hf) as [H1 H2].
  split; [lia|]. split; [|split; reflexivity].
  intros Hrun. destruct H1 as (Hs & Hi & Hc); [lia|].
  simpl. unfold on_click. now rewrite Hs, Hi, Hc.
Qed.


End WindowFacts.

(** ** The laboratories *)

Lemma series_honours_stop (dev : nat -> outcome (list Q * list Q)) :
  @honours_stop (series_env dev).
Proof.
  intros g e H. simpl. unfold series_next. now rewrite H.
Qed.

Lemma steady_device_never_fails : @device_never_fails lab.
Proof. intros n. eexists. reflexivity. Qed.

(** Scenario A of the design: five scans, five spectra, progress 1..5. *)
Example scenario_A :
  let st := exec (@integrate_act lab) (repeat Tick 22)
              (integrate_start false 5%Z fresh_experiment) in
  i_pc st = IExit (Returned tt) /\
  length (spectra (i_emitted st)) = 5 /\
  progress_indices (i_emitted st) = [1; 2; 3; 4; 5].
Proof. vm_compute. repeat split. Qed.

(** Scenario B: continuous mode, stop after three emissions. *)
Example scenario_B :
  let st := exec (@continuous_act lab) (repeat Tick 10 ++ Stop :: repeat Tick 3)
              (continuous_start false fresh_experiment) in
  c_pc st = CExit (Returned tt) /\
  length (spectra (c_emitted st)) = 4 /\
  progress_indices (c_emitted st) = [].
Proof. vm_compute. repeat split. Qed.

(** C1, on the steady device with three scans and a stale flag. *)
Lemma integrate_run_emits_k_witness :
  let l := drain (env := lab) 10 (exp_integrate_spectrum 3%Z) fresh_experiment in
  let st := exec (@integrate_act lab) (repeat Tick 14)
              (integrate_start true 3%Z fresh_experiment) in
  length l = 3 /\
  i_emitted st = steps_from 1 l /\
  progress_indices (i_emitted st) = [1; 2; 3].
Proof.
  intros l st.
  assert (Hl : length l = 3) by reflexivity.
  assert (Hy : yields (env := lab) (exp_integrate_spectrum 3%Z) fresh_experiment l).
  { simpl. repeat (eexists; eexists; split; [reflexivity|]). eexists. reflexivity. }
  assert (Hn : 4 * 3 + 2 <= 14) by (simpl; lia).
  split; [exact Hl|].
  destruct (@integrate_run_emits_k lab 3 l true fresh_experiment 14 Hl Hy Hn)
    as (_ & H2 & _ & _ & H5 & _).
  split; [exact H2|exact H5].
Defined.

(** C2, on the steady device: five scans asked for, stop() called during
    step 1. *)
Lemma integrate_stop_observed_witness :
  let st := exec (@integrate_act lab) stop_during_step_1
              (integrate_start false 5%Z fresh_experiment) in
  let st' := exec (@integrate_act lab) [Tick; Tick; Tick] st in
  (i_pc st = ICheck /\ i_idx st = 1 /\ i_stopped st = true) /\
  reads (i_experiment st') = reads (i_experiment st) /\
  i_emitted st' = i_emitted st /\
  length (spectra (i_emitted st')) = 1 /\
  i_idx st' = 1 /\
  i_pc st' = IExit (Returned tt).
Proof.
  intros st st'.
  assert (Hpc : i_pc st = ICheck) by reflexivity.
  assert (Hidx : i_idx st = 1) by reflexivity.
  assert (Hflag : i_stopped st = true) by reflexivity.
  split; [auto|].
  destruct (@integrate_stop_observed lab 5%Z false fresh_experiment
              stop_during_step_1 [Tick; Tick; Tick] 1
              (@series_honours_stop steady_device) Hpc Hidx Hflag)
    as (H1 & H2 & H3 & H4 & H5).
  split; [exact H1|]. split; [exact H2|]. split; [exact H3|]. split; [exact H4|].
  apply H5. unfold ticks. simpl. lia.
Defined.

(** C4, on the steady device: stop() arrives after five worker steps. *)
Lemma continuous_run_stopped_witness :
  let start := @continuous_start lab true fresh_experiment in
  let at_stop := exec continuous_act (repeat Tick 5) start in
  let final :=
    exec continuous_act (repeat Tick 5 ++ Stop :: [Tick; Tick; Stop; Tick; Tick]) start in
  3 <= ticks [Tick; Tick; Stop; Tick; Tick] /\
  c_pc final = CExit (Returned tt) /\
  spectra (c_emitted final) <> [] /\
  length (spectra (c_emitted final)) <= length (spectra (c_emitted at_stop)) + 1.
Proof.
  intros start at_stop final.
  assert (Ht : 3 <= ticks [Tick; Tick; Stop; Tick; Tick]) by (unfold ticks; simpl; lia).
  split; [exact Ht|].
  destruct (@continuous_run_stopped lab true fresh_experiment 4
              [Tick; Tick; Stop; Tick; Tick] steady_device_never_fails Ht)
    as (H1 & H2 & H3 & _).
  split; [exact H1|]. split; [exact H2|exact H3].
Defined.

(** C8, on a stored spectrum of three sample pairs. *)
Lemma save_data_table_witness :
  let r := save_data (env := lab) "out.csv" true window_with_data in
  fst r = Returned tt /\
  files_written (effects (snd r)) =
    [("out.csv"%string,
      [["Wavelength (nm)"; "Intensity"];
       ["400/1"; "1/1"]; ["500/1"; "2/1"]; ["600/1"; "7/1"]]%string)].
Proof.
  intros r.
  destruct (@save_data_table lab window_with_data
              [inject_Z 400; inject_Z 500; inject_Z 600]
              [inject_Z 1; inject_Z 2; inject_Z 7] 3 "out.csv"
              eq_refl eq_refl eq_refl eq_refl)
    as (H1 & H2 & _).
  split; [exact H1|exact H2].
Defined.

(** C10, on the fresh window. *)
Lemma save_data_without_data_witness :
  let r := save_data (env := lab) "out.csv" true (fresh_window lab) in
  _wavelengths (fresh_window lab) = None /\
  fst r = Returned tt /\
  effects (snd r) = [warning_box "No data" "Perform a measurement before saving."] /\
  files_written (effects (snd r)) = [].
Proof.
  intros r. split; [reflexivity|].
  destruct (@save_data_without_data lab (fresh_window lab) "out.csv" true
              (or_introl eq_refl))
    as (H1 & H2 & H3 & _).
  split; [exact H1|]. split; [|exact H3].
  unfold r. rewrite H2. reflexivity.
Defined.

(** C3 as claimed fails: with the continuous worker running, the integrate
    slot neither raises nor holds back; it returns and starts the second
    worker. *)
Lemma start_while_running_not_refused :
  running_workers window_continuous = 1 /\
  fst (integrate_spectrum window_continuous) = Returned tt /\
  running_workers (snd (integrate_spectrum window_continuous)) = 2.
Proof. repeat split. Qed.

(** C3 as the code has it, on the session. *)
Lemma one_worker_at_a_time_witness :
  fire_all session fresh_app = Some after_session /\
  running_workers (window after_session) = 1 /\
  fire click_single after_session = None /\
  fire click_integrate after_session = None /\
  fire click_continuous after_session = None.
Proof.
  assert (Hf : fire_all session fresh_app = Some after_session)
    by (lazy; reflexivity).
  assert (Hr : running_workers (window after_session) = 1)
    by (lazy; reflexivity).
  assert (H0 : running_workers (window fresh_app) = 0) by (lazy; reflexivity).
  assert (Hp : pending_finished fresh_app = 0) by reflexivity.
  pose proof (@one_worker_at_a_time lab fresh_app after_session session H0 Hp Hf)
    as (_ & H2 & _).
  split; [exact Hf|]. split; [exact Hr|].
  exact (H2 (eq_ind_r (fun n => 1 <= n) (le_n 1) Hr)).
Defined.

(** C5 as claimed fails: on the fresh window no worker runs and the
    integrate worker's flag is clear; [stop_measurement] sets it. *)
Lemma stop_when_idle_sets_flag :
  running_workers (fresh_window lab) = 0 /\
  stopped (integrate_spectrum_worker (fresh_window lab)) = false /\
  stopped (integrate_spectrum_worker (snd (stop_measurement (fresh_window lab)))) = true /\
  snd (stop_measurement (fresh_window lab)) <> fresh_window lab.
Proof.
  repeat split.
  intros H.
  apply (f_equal (fun s => stopped (integrate_spectrum_worker s))) in H.
  discriminate H.
Qed.

(** C5 as the code has it, on the fresh window and on the two windows
    with a worker running. *)
Lemma stop_measurement_routes_witness :
  (snd (stop_measurement (fresh_window lab)) =
     with_integrate_worker stop (fresh_window lab)) /\
  stopped (continuous_spectrum_worker (snd (stop_measurement window_continuous))) = true /\
  stopped (integrate_spectrum_worker (snd (stop_measurement window_integrating))) = true.
Proof.
  destruct (@stop_measurement_routes lab (fresh_window lab)) as (_ & H0 & _ & _).
  destruct (@stop_measurement_routes lab window_continuous) as (_ & _ & H1 & _).
  destruct (@stop_measurement_routes lab window_integrating) as (_ & _ & _ & H2).
  split; [exact (proj1 (H0 eq_refl))|].
  split; [exact (proj1 (H1 eq_refl))|exact (proj1 (H2 eq_refl eq_refl))].
Defined.



(** ** Further facts about the worker threads *)

Section MoreWorkerFacts.

Context {env : Environment}.

Lemma steps_from_snoc (l : list Spectrum) (i : nat) (s : Spectrum) :
  steps_from i (l ++ [s]) =
  steps_from i l ++ [new_data s; progress_sig (i + length l)].
Proof.
  revert i; induction l as [|x l IH]; intros i; simpl.
  - now rewrite Nat.add_0_r.
  - rewrite IH. replace (S i + length l) with (i + S (length l)) by lia.
    reflexivity.
Qed.

Lemma alternating_act (a : action) (st : IntegrateRun) :
  alternating st -> alternating (integrate_act a st).
Proof.
  intros [l H]. destruct a; simpl.
  - unfold alternating, integrate_tick.
    destruct (i_pc st) eqn:Hpc; simpl.
    + exists []. destruct H as [_ H]. rewrite H. auto.
    + destruct (i_iter st) as [g|]; [|exists l; now rewrite Hpc].
      destruct (next g (i_experiment st)); simpl; exists l; destruct H; auto.
    + exists l. destruct H as [H1 H2]. split; [|assumption].
      exists s. now rewrite H1.
    + destruct H as [[s H1] H2]. exists (l ++ [s]).
      rewrite H1, H2, steps_from_snoc, <- app_assoc, length_app. simpl.
      split; [reflexivity|lia].
    + exists l. exact H.
    + exists l. rewrite Hpc. exact H.
  - exists l. exact H.
Qed.

(** X1. In every integrate run, whatever the generator does and whenever
    stop() is called, the emissions alternate: spectrum 1, progress 1,
    spectrum 2, progress 2, ..., possibly with one last spectrum whose
    progress value is still to come; the progress values are 1, 2, ..., n
    without gap or repetition. *)
Theorem integrate_emissions_alternate (flag : bool) (c : Z) (e : Experiment)
    (sched : list action) :
  let st := exec integrate_act sched (integrate_start flag c e) in
  exists l,
    (i_emitted st = steps_from 1 l \/
     exists s, i_emitted st = steps_from 1 l ++ [new_data s]) /\
    progress_indices (i_emitted st) = seq 1 (length l).
Proof.
  intros st.
  assert (H : alternating st).
  { unfold st. generalize (integrate_start flag c e),
      (ex_intro (fun l => l = [] /\ @nil signal = []) [] (conj eq_refl eq_refl)
         : alternating (integrate_start flag c e)).
    induction sched as [|a sched IH]; intros st0 H0; simpl; [exact H0|].
    apply IH, alternating_act, H0. }
  destruct H as [l H]. unfold alternating in H.
  destruct (i_pc st).
  - exists []. destruct H as [_ H]. rewrite H. simpl. auto.
  - exists l. destruct H as [H _]. rewrite H, progress_steps_from. auto.
  - exists l. destruct H as [H _]. rewrite H, progress_steps_from. auto.
  - exists l. destruct H as [[s H] _]. rewrite H.
    rewrite progress_indices_app, progress_steps_from. simpl.
    rewrite app_nil_r. eauto.
  - exists l. destruct H as [H _]. rewrite H, progress_steps_from. auto.
  - exists l. destruct H as [H _]. rewrite H, progress_steps_from. auto.
Qed.

Lemma device_order_act (r0 : nat) (a : action) (st : ContinuousRun) :
  device_order r0 st -> device_order r0 (continuous_act a st).
Proof.
  intros (n & tail & Hr & Hp & Hm & Ht). destruct a; simpl.
  - unfold device_order, continuous_tick.
    destruct (c_pc st) as [| |s| |o] eqn:Hpc; simpl.
    + exists n, tail. auto.
    + subst tail. unfold get_spectrum, hardware_read.
      destruct (device_read (reads (c_experiment st))) as [s|x] eqn:Hd; simpl.
      * exists (S n), [Returned s]. rewrite Hr.
        repeat split; auto.
        rewrite seq_S, map_app, <- Hm, app_nil_r. simpl. now rewrite <- Hr, Hd.
      * exists (S n), [Raised x]. rewrite Hr.
        repeat split; auto.
        rewrite seq_S, map_app, <- Hm, app_nil_r. simpl. now rewrite <- Hr, Hd.
    + subst tail. exists n, []. rewrite spectra_app, progress_indices_app, Hp.
      simpl. rewrite app_nil_r, map_app. simpl. auto.
    + subst tail. exists n, []. repeat split; auto.
      destruct (c_stopped st); reflexivity.
    + exists n, tail. rewrite Hpc. auto.
  - exists n, tail. auto.
Qed.

Lemma device_order_exec (r0 : nat) (sched : list action) (st : ContinuousRun) :
  device_order r0 st -> device_order r0 (exec continuous_act sched st).
Proof.
  revert st; induction sched as [|a sched IH]; intros st H; simpl; [assumption|].
  apply IH, device_order_act, H.
Qed.

Lemma answers_in_order (r0 n : nat) (ss : list Spectrum)
    (tail : list (outcome Spectrum)) :
  map Returned ss ++ tail = map device_read (seq r0 n) ->
  length ss + length tail = n /\
  forall j s, nth_error ss j = Some s -> device_read (r0 + j) = Returned s.
Proof.
  intros H. split.
  - apply (f_equal (@length _)) in H.
    rewrite length_app, !length_map, length_seq in H. exact H.
  - intros j s Hj.
    assert (Hlt : j < length ss) by (apply nth_error_Some; congruence).
    assert (Hn : j < n).
    { apply (f_equal (@length _)) in H.
      rewrite length_app, !length_map, length_seq in H. lia. }
    apply (f_equal (fun l => nth_error l j)) in H.
    rewrite nth_error_app1 in H by (rewrite length_map; exact Hlt).
    rewrite (map_nth_error Returned j ss Hj) in H.
    assert (Hs : nth_error (seq r0 n) j = Some (r0 + j)).
    { rewrite nth_error_nth' with (d := 0) by (rewrite length_seq; exact Hn).
      now rewrite seq_nth. }
    pose proof (eq_trans H (map_nth_error device_read j (seq r0 n) Hs)) as HE.
    now inversion HE.
Qed.

(** X2. A continuous run emits the device's answers and nothing else: its
    j-th emitted spectrum is the answer to the j-th read made in the run,
    so none is dropped, repeated or reordered; at most one answer has been
    read and not emitted yet, none when the run has returned; and the run
    never emits a progress value. *)
Theorem continuous_emits_device_answers (flag : bool) (e : Experiment)
    (sched : list action) :
  let st := exec continuous_act sched (continuous_start flag e) in
  let emitted := spectra (c_emitted st) in
  progress_indices (c_emitted st) = [] /\
  (forall j s, nth_error emitted j = Some s ->
     device_read (reads e + j) = Returned s) /\
  reads e + length emitted <= reads (c_experiment st) /\
  reads (c_experiment st) <= reads e + length emitted + 1 /\
  (c_pc st = CExit (Returned tt) ->
     reads (c_experiment st) = reads e + length emitted).
Proof.
  intros st emitted.
  assert (H : device_order (reads e) st).
  { apply device_order_exec. exists 0, []. simpl. auto. }
  destruct H as (n & tail & Hr & Hp & Hm & Ht).
  destruct (answers_in_order _ _ _ _ Hm) as [Hlen Hnth].
  fold emitted in Hlen, Hnth.
  assert (Htail : length tail <= 1).
  { destruct (c_pc st) as [| |s| |[u|x]]; subst tail; simpl; lia. }
  split; [exact Hp|]. split; [exact Hnth|].
  split; [lia|]. split; [lia|].
  intros Hpc. rewrite Hpc in Ht. subst tail. simpl in Hlen. lia.
Qed.

Lemma continuous_iteration (Hdev : device_never_fails) (st : ContinuousRun) :
  c_pc st = CRead -> c_stopped st = false ->
  let st' := exec continuous_act [Tick; Tick; Tick] st in
  c_pc st' = CRead /\ c_stopped st' = false /\
  length (spectra (c_emitted st')) = S (length (spectra (c_emitted st))).
Proof.
  intros Hpc Hf.
  destruct (Hdev (reads (c_experiment st))) as [s Hs].
  assert (E : continuous_tick st =
              {| c_stopped := c_stopped st;
                 c_experiment := count_read (c_experiment st);
                 c_pc := CEmit s; c_emitted := c_emitted st |}).
  { unfold continuous_tick, get_spectrum, hardware_read. now rewrite Hpc, Hs. }
  change (exec continuous_act [Tick; Tick; Tick] st)
    with (continuous_tick (continuous_tick (continuous_tick st))).
  rewrite E. unfold continuous_tick; simpl. rewrite Hf. simpl.
  rewrite spectra_app, length_app. simpl. repeat split; lia.
Qed.

(** X3. On a device whose reads succeed, a continuous run to which no stop
    request comes never ends: after its first statement and k rounds of
    three steps it is back at the read with exactly k spectra emitted, and
    at no step has it left [run]. *)
Theorem continuous_runs_until_stopped (flag : bool) (e : Experiment) :
  device_never_fails ->
  (forall k,
     let st := exec continuous_act (repeat Tick (1 + 3 * k)) (continuous_start flag e) in
     c_pc st = CRead /\ length (spectra (c_emitted st)) = k) /\
  (forall n o,
     c_pc (exec continuous_act (repeat Tick n) (continuous_start flag e)) <> CExit o).
Proof.
  intros Hdev. split.
  - intros k.
    assert (H : let st := exec continuous_act (repeat Tick (1 + 3 * k))
                            (continuous_start flag e) in
                c_pc st = CRead /\ c_stopped st = false /\
                length (spectra (c_emitted st)) = k).
    { induction k as [|k IH]; [simpl; auto|].
      replace (1 + 3 * S k) with ((1 + 3 * k) + 3) by lia.
      rewrite repeat_plus, exec_app. cbv zeta in IH.
      destruct IH as (H1 & H2 & H3).
      destruct (continuous_iteration Hdev _ H1 H2) as (H4 & H5 & H6).
      cbv zeta in H4, H5, H6 |- *.
      change (repeat Tick 3) with [Tick; Tick; Tick].
      split; [exact H4|]. split; [exact H5|]. rewrite H6, H3. reflexivity. }
    cbv zeta in *. destruct H as (H1 & _ & H3). auto.
  - intros n o Ho. destruct n as [|n]; [discriminate|].
    destruct (continuous_keeps_running Hdev flag e n) as [_ Hl].
    unfold in_loop in Hl. now rewrite Ho in Hl.
Qed.


Lemma stopping_act (Hstop : honours_stop) (a : action) (st : IntegrateRun) :
  stopping st ->
  stopping (integrate_act a st) /\
  stopping_rank (integrate_act a st) <=
    (if is_tick a then pred (stopping_rank st) else stopping_rank st) /\
  length (spectra (i_emitted (integrate_act a st))) +
    stopping_pending (integrate_act a st) <=
  length (spectra (i_emitted st)) + stopping_pending st.
Proof.
  unfold stopping, stopping_rank, stopping_pending.
  intros [Hf H]. destruct a; simpl.
  - unfold integrate_tick.
    destruct (i_pc st) eqn:Hpc; simpl.
    + contradiction.
    + destruct (i_iter st) as [g|] eqn:Hg; [|congruence].
      destruct (exp_stopped (i_experiment st)) eqn:Hs.
      * rewrite (Hstop g _ Hs). simpl. repeat split; auto.
      * destruct (next g (i_experiment st)); simpl; repeat split; auto; try lia.
        discriminate.
    + rewrite spectra_app, length_app. simpl. repeat split; auto; lia.
    + rewrite spectra_app, length_app. simpl. repeat split; auto; lia.
    + rewrite Hf. simpl. repeat split; auto.
    + rewrite Hpc. repeat split; auto.
  - repeat split; auto.
Qed.

Lemma stopping_exec (Hstop : honours_stop) (sched : list action) (st : IntegrateRun) :
  stopping st ->
  stopping (exec integrate_act sched st) /\
  stopping_rank (exec integrate_act sched st) <= stopping_rank st - ticks sched /\
  length (spectra (i_emitted (exec integrate_act sched st))) +
    stopping_pending (exec integrate_act sched st) <=
  length (spectra (i_emitted st)) + stopping_pending st.
Proof.
  revert st; induction sched as [|a sched IH]; intros st H; simpl.
  - split; [assumption|]. unfold ticks; simpl. lia.
  - destruct (stopping_act Hstop a H) as (H1 & H2 & H3).
    destruct (IH _ H1) as (H4 & H5 & H6).
    split; [assumption|]. unfold ticks in *. simpl.
    destruct a; simpl in *; lia.
Qed.

Lemma integrate_past_reset_exec (sched : list action) (st : IntegrateRun) :
  i_pc st <> IEnter -> i_pc (exec integrate_act sched st) <> IEnter.
Proof.
  revert st; induction sched as [|a sched IH]; intros st H; simpl; [assumption|].
  apply IH, integrate_past_reset_act, H.
Qed.

(** X5. In an integrate run over a generator that honours the stop
    contract, let stop() be called at any moment after the run's first
    statement.  Then the run is over after at most five more worker steps
    (whatever the scan count and however the generator ends), and at most
    one spectrum is emitted after the call. *)
Theorem integrate_stop_latency (flag : bool) (c : Z) (e : Experiment)
    (before after : list action) :
  honours_stop ->
  5 <= ticks after ->
  let at_stop := exec integrate_act (Tick :: before) (integrate_start flag c e) in
  let final :=
    exec integrate_act (Tick :: before ++ Stop :: after) (integrate_start flag c e) in
  (exists o, i_pc final = IExit o) /\
  length (spectra (i_emitted final)) <= length (spectra (i_emitted at_stop)) + 1.
Proof.
  intros Hstop Ht at_stop final.
  assert (Hfinal : final = exec integrate_act after (integrate_stop at_stop)).
  { unfold final, at_stop.
    change (Tick :: before ++ Stop :: after) with ((Tick :: before) ++ Stop :: after).
    now rewrite exec_app. }
  assert (Hpc : i_pc at_stop <> IEnter).
  { unfold at_stop. simpl. apply integrate_past_reset_exec. discriminate. }
  assert (Hinv : integrate_inv at_stop).
  { unfold at_stop. apply integrate_inv_exec. reflexivity. }
  assert (Hs : stopping (integrate_stop at_stop)).
  { unfold stopping, integrate_inv in *. simpl.
    split; [reflexivity|].
    destruct (i_pc at_stop); try tauto. }
  destruct (stopping_exec Hstop after Hs) as (H1 & H2 & H3).
  rewrite <- Hfinal in H1, H2, H3.
  assert (Hr : stopping_rank (integrate_stop at_stop) <= 5).
  { unfold stopping_rank. simpl.
    destruct (i_pc at_stop); try lia.
    destruct (exp_stopped (i_experiment at_stop)); lia. }
  assert (Hp : stopping_pending (integrate_stop at_stop) <= 1).
  { unfold stopping_pending. simpl.
    destruct (i_pc at_stop); try lia.
    destruct (exp_stopped (i_experiment at_stop)); lia. }
  assert (H0 : stopping_rank final = 0) by lia.
  split.
  - unfold stopping in H1. unfold stopping_rank in H0.
    destruct (i_pc final) as [| |s| | |o]; try discriminate.
    + tauto.
    + destruct (exp_stopped (i_experiment final)); discriminate.
    + eauto.
  - simpl in H3. lia.
Qed.

End MoreWorkerFacts.

(** ** Further facts about the main window *)

Section MoreWindowFacts.

Context {env : Environment}.

Lemma csv_rows_length (ws ins : NDArray) :
  length (csv_rows ws ins) = Nat.min (length ws) (length ins).
Proof. unfold csv_rows. now rewrite length_map, length_combine. Qed.

(** X6. [save_data] pairs the stored arrays with [zip]: when they differ in
    length the table stops with the shorter one.  With both arrays stored
    and the file opening, the file holds the header and then exactly
    min(number of wavelengths, number of intensities) rows, row j being the
    j-th wavelength and the j-th intensity. *)
Theorem save_data_truncates (self : UserInterface) (ws ins : NDArray)
    (path : string) :
  _wavelengths self = Some ws ->
  _intensities self = Some ins ->
  let r := save_data path true self in
  let rows := csv_rows ws ins in
  files_written (effects (snd r)) =
    files_written (effects self) ++ [(path, csv_header :: rows)] /\
  length rows = Nat.min (length ws) (length ins) /\
  (forall j w i, nth_error ws j = Some w -> nth_error ins j = Some i ->
     nth_error rows j = Some [str w; str i]).
Proof.
  intros Hw Hi r rows.
  split; [|split].
  - unfold r, save_data, bind, gets, modify. simpl. rewrite Hw, Hi. simpl.
    rewrite !files_written_app. simpl. now rewrite app_nil_r.
  - apply csv_rows_length.
  - intros j w i. apply csv_rows_nth.
Qed.

(** *** The stored spectrum and the plot *)

Lemma same_sink_consistent (s s' : UserInterface) :
  same_sink s s' -> sink_consistent s -> sink_consistent s'.
Proof.
  unfold same_sink, sink_consistent. intros (H1 & H2 & H3).
  now rewrite H1, H2, H3.
Qed.

Lemma plot_new_data_shows (w i : NDArray) (self : UserInterface) :
  let self' := snd (plot_new_data w i self) in
  fst (plot_new_data w i self) = Returned tt /\
  shows (w, i) self' /\
  sink_frame self' = sink_frame self /\
  value (progress_bar (ui self')) = value (progress_bar (ui self)).
Proof. repeat split. Qed.

Lemma shows_consistent (s : Spectrum) (self : UserInterface) :
  shows s self -> sink_consistent self.
Proof.
  unfold shows, sink_consistent. intros (H1 & H2 & H3).
  rewrite H1, H2, H3. simpl. destruct s. eauto.
Qed.

Lemma single_measurement_sink (self : UserInterface) :
  sink_consistent self -> sink_consistent (snd (single_measurement self)).
Proof.
  intros H.
  unfold single_measurement, bind, experiment_get_spectrum, get_spectrum,
    hardware_read, setRange, modify. simpl.
  destruct (device_read (reads (experiment self))) as [[w i]|x]; simpl.
  - apply (shows_consistent (s := (w, i))). repeat split.
  - revert H. apply same_sink_consistent. repeat split.
Qed.

Lemma stop_measurement_sink (self : UserInterface) :
  same_sink self (snd (stop_measurement self)).
Proof.
  unfold same_sink, stop_measurement, bind, gets, modify, setRange. simpl.
  destruct (isRunning (continuous_spectrum_worker self)); simpl; repeat split.
Qed.

Lemma save_data_sink (path : string) (opens : bool) (self : UserInterface) :
  same_sink self (snd (save_data path opens self)).
Proof.
  unfold same_sink, save_data, bind, gets, modify. simpl.
  destruct (_wavelengths self) eqn:Hw, (_intensities self) eqn:Hi, opens; simpl;
    repeat split; congruence.
Qed.

Lemma fire_keeps_sink (ev : event) (a a' : App) :
  sink_consistent (window a) -> fire ev a = Some a' -> sink_consistent (window a').
Proof.
  intros H Hf.
  destruct ev; simpl in Hf; unfold on_click in Hf.
  - destruct (single_button (ui (window a))); [|discriminate].
    inversion Hf; subst. simpl. now apply single_measurement_sink.
  - destruct (integrate_button (ui (window a))); [|discriminate].
    inversion Hf; subst. revert H. apply same_sink_consistent. repeat split.
  - destruct (continuous_button (ui (window a))); [|discriminate].
    inversion Hf; subst. revert H. apply same_sink_consistent. repeat split.
  - destruct (stop_button (ui (window a))); [|discriminate].
    inversion Hf; subst. revert H. apply same_sink_consistent.
    apply stop_measurement_sink.
  - inversion Hf; subst. revert H. apply same_sink_consistent. repeat split.
  - inversion Hf; subst. revert H. apply same_sink_consistent.
    apply save_data_sink.
  - inversion Hf; subst. revert H. apply same_sink_consistent. repeat split.
  - inversion Hf; subst. destruct s as [w i].
    apply (shows_consistent (s := (w, i))). repeat split.
  - inversion Hf; subst. revert H. apply same_sink_consistent. repeat split.
  - destruct (isRunning (integrate_spectrum_worker (window a))); [|discriminate].
    inversion Hf; subst. revert H. apply same_sink_consistent. repeat split.
  - destruct (isRunning (continuous_spectrum_worker (window a))); [|discriminate].
    inversion Hf; subst. revert H. apply same_sink_consistent. repeat split.
  - destruct (pending_finished a); [discriminate|].
    inversion Hf; subst. revert H. apply same_sink_consistent. repeat split.
Qed.

(** X7. The window holds the last sample and shows it: starting from a
    window whose stored spectrum is the one curve on its plot (or that has
    neither), after any sequence of events the same is true.  In particular
    the two stored references are None together or not at all, so
    [save_data] warns exactly when nothing has been plotted yet, and what
    it writes is the curve on display. *)
Theorem sink_holds_last_sample (a0 a : App) (evs : list event) :
  sink_consistent (window a0) ->
  fire_all evs a0 = Some a ->
  sink_consistent (window a) /\
  (_wavelengths (window a) = None <-> _intensities (window a) = None) /\
  (forall w i, _wavelengths (window a) = Some w -> _intensities (window a) = Some i ->
     map fst (curves (plot_widget (ui (window a)))) = [(w, i)]).
Proof.
  intros H0 Hf.
  assert (H : sink_consistent (window a)).
  { revert a0 H0 Hf. induction evs as [|ev evs IH]; intros a0 H0 Hf; simpl in Hf.
    - now inversion Hf; subst.
    - destruct (fire ev a0) as [a1|] eqn:E; [|discriminate].
      eapply IH; [|exact Hf]. eapply fire_keeps_sink; eauto. }
  split; [exact H|].
  unfold sink_consistent in H.
  destruct (_wavelengths (window a)) as [w|], (_intensities (window a)) as [i|];
    try contradiction.
  - split; [split; discriminate|].
    intros w' i' Hw Hi. inversion Hw; inversion Hi; subst.
    destruct H as [sty H]. now rewrite H.
  - split; [tauto|]. discriminate.
Qed.

(** X8. Toggling takes effect at the next plot.  [toggle_lines_markers]
    raises, but the flipped flag stays: two toggles in a row give the
    window back as it was, and the spectrum plotted after one toggle is
    drawn in the other style (markers if lines were shown, lines if
    markers were). *)
Theorem toggle_then_plot (self : UserInterface) (w i : NDArray) :
  snd (toggle_lines_markers (snd (toggle_lines_markers self))) = self /\
  let r := plot_new_data w i (snd (toggle_lines_markers self)) in
  fst r = Returned tt /\
  curves (plot_widget (ui (snd r))) =
    [((w, i), if _show_lines self then Markers else Lines)].
Proof.
  split.
  - destruct self. unfold toggle_lines_markers, bind, gets, modify. simpl.
    unfold with_show_lines. simpl. now rewrite negb_involutive.
  - simpl. split; [reflexivity|].
    destruct (_show_lines self); reflexivity.
Qed.

(** X9. A single measurement that succeeds stores and plots the spectrum
    the device answered with (one curve, in the style that [_show_lines]
    selects), after setting the progress bar's range to 0..1 and making
    exactly one hardware read. *)
Theorem single_measurement_success (self : UserInterface) (w i : NDArray) :
  device_read (reads (experiment self)) = Returned (w, i) ->
  let r := single_measurement self in
  fst r = Returned tt /\
  shows (w, i) (snd r) /\
  reads (experiment (snd r)) = S (reads (experiment self)) /\
  minimum (progress_bar (ui (snd r))) = 0%Z /\
  maximum (progress_bar (ui (snd r))) = 1%Z.
Proof.
  intros Hd.
  unfold single_measurement, bind, experiment_get_spectrum, get_spectrum,
    hardware_read, setRange, modify. simpl. rewrite Hd. simpl.
  repeat split.
Qed.


(** X11. [stop_measurement] is idempotent: a second call in a row returns
    as well and leaves the window exactly as the first call left it. *)
Theorem stop_measurement_idempotent (self : UserInterface) :
  let once := snd (stop_measurement self) in
  fst (stop_measurement once) = Returned tt /\
  snd (stop_measurement once) = once.
Proof.
  unfold stop_measurement, bind, gets, modify, setRange. simpl.
  destruct (isRunning (continuous_spectrum_worker self)) eqn:Hc; simpl;
    rewrite Hc; simpl; split; reflexivity.
Qed.

(** *** The buttons *)

Lemma controls_transfer (a a' : App) :
  same_controls (window a) (window a') ->
  stop_button (ui (window a')) = stop_button (ui (window a)) ->
  pending_finished a' = pending_finished a ->
  controls_consistent a -> controls_consistent a'.
Proof.
  unfold same_controls, controls_consistent, busy, running_workers.
  intros (H1 & H2 & H3 & H4 & H5) H6 Hp.
  rewrite H1, H2, H3, H4, H5, H6, Hp. trivial.
Qed.

Lemma quiet_slot (m : method unit) (a : App) :
  same_controls (window a) (snd (m (window a))) ->
  stop_button (ui (snd (m (window a)))) = stop_button (ui (window a)) ->
  controls_consistent a -> controls_consistent (run_slot m a).
Proof.
  intros H1 H2. apply controls_transfer; [exact H1|exact H2|reflexivity].
Qed.

Lemma single_measurement_stop_button (self : UserInterface) :
  stop_button (ui (snd (single_measurement self))) = stop_button (ui self).
Proof.
  unfold single_measurement, bind, experiment_get_spectrum, get_spectrum,
    hardware_read, setRange, modify. simpl.
  destruct (device_read (reads (experiment self))); reflexivity.
Qed.

Lemma stop_measurement_stop_button (self : UserInterface) :
  stop_button (ui (snd (stop_measurement self))) = stop_button (ui self).
Proof.
  unfold stop_measurement, bind, gets, modify, setRange. simpl.
  destruct (isRunning (continuous_spectrum_worker self)); reflexivity.
Qed.

Lemma save_data_stop_button (path : string) (opens : bool) (self : UserInterface) :
  stop_button (ui (snd (save_data path opens self))) = stop_button (ui self).
Proof.
  unfold save_data, bind, gets, modify. simpl.
  destruct (_wavelengths self), (_intensities self), opens; reflexivity.
Qed.

Lemma fire_keeps_controls (ev : event) (a a' : App) :
  controls_consistent a -> fire ev a = Some a' -> controls_consistent a'.
Proof.
  intros Hc Hf.
  destruct ev; simpl in Hf; unfold on_click in Hf.
  - destruct (single_button (ui (window a))); [|discriminate].
    inversion Hf; subst. apply quiet_slot; auto.
    + apply single_measurement_controls.
    + apply single_measurement_stop_button.
  - destruct (integrate_button (ui (window a))) eqn:Hb; [|discriminate].
    inversion Hf; subst. clear Hf.
    unfold controls_consistent, busy, running_workers in *. simpl in *.
    destruct Hc as (H0 & _ & H2 & _). rewrite Hb in H2.
    destruct (isRunning (integrate_spectrum_worker (window a)));
      destruct (isRunning (continuous_spectrum_worker (window a)));
      destruct (pending_finished a); simpl in *; try discriminate.
    repeat split; auto.
  - destruct (continuous_button (ui (window a))) eqn:Hb; [|discriminate].
    inversion Hf; subst. clear Hf.
    unfold controls_consistent, busy, running_workers in *. simpl in *.
    destruct Hc as (H0 & _ & _ & H3 & _). rewrite Hb in H3.
    destruct (isRunning (integrate_spectrum_worker (window a)));
      destruct (isRunning (continuous_spectrum_worker (window a)));
      destruct (pending_finished a); simpl in *; try discriminate.
    repeat split; auto.
  - destruct (stop_button (ui (window a))); [|discriminate].
    inversion Hf; subst. apply quiet_slot; auto.
    + apply stop_measurement_controls.
    + apply stop_measurement_stop_button.
  - inversion Hf; subst. apply quiet_slot; auto.
    apply toggle_lines_markers_controls.
  - inversion Hf; subst. apply quiet_slot; auto.
    + apply save_data_controls.
    + apply save_data_stop_button.
  - inversion Hf; subst. apply quiet_slot; auto.
    unfold same_controls. simpl. repeat split; reflexivity.
  - inversion Hf; subst. apply quiet_slot; auto.
    apply plot_new_data_controls.
  - inversion Hf; subst. apply quiet_slot; auto.
    unfold same_controls. simpl. repeat split; reflexivity.
  - destruct (isRunning (integrate_spectrum_worker (window a))) eqn:Hr; [|discriminate].
    inversion Hf; subst. clear Hf.
    unfold controls_consistent, busy, running_workers in *. simpl in *.
    rewrite Hr in Hc.
    destruct (isRunning (continuous_spectrum_worker (window a)));
      destruct (pending_finished a); simpl in *;
      destruct Hc as (H0 & H1 & H2 & H3 & H4); try lia.
    repeat split; auto.
  - destruct (isRunning (continuous_spectrum_worker (window a))) eqn:Hr; [|discriminate].
    inversion Hf; subst. clear Hf.
    unfold controls_consistent, busy, running_workers in *. simpl in *.
    rewrite Hr in Hc.
    destruct (isRunning (integrate_spectrum_worker (window a)));
      destruct (pending_finished a); simpl in *;
      destruct Hc as (H0 & H1 & H2 & H3 & H4); try lia.
    repeat split; auto.
  - destruct (pending_finished a) as [|n] eqn:Hp; [discriminate|].
    inversion Hf; subst. clear Hf.
    unfold controls_consistent, busy, running_workers in *. simpl in *.
    rewrite Hp in Hc.
    destruct (isRunning (integrate_spectrum_worker (window a)));
      destruct (isRunning (continuous_spectrum_worker (window a)));
      destruct n; simpl in *;
      destruct Hc as (H0 & H1 & H2 & H3 & H4); try lia;
      repeat split; auto.
Qed.

(** X12. The buttons always tell whether a run is active.  Starting from a
    state in which they do (as in a fresh session: start buttons enabled,
    stop disabled, nothing running), after any sequence of events the stop
    button is enabled exactly while a worker runs or its [finished] signal
    is still queued, and the single, integrate and continuous buttons are
    enabled exactly when no run is active; so a finished run always leaves
    the window ready for the next one. *)
Theorem buttons_follow_runs (a0 a : App) (evs : list event) :
  controls_consistent a0 ->
  fire_all evs a0 = Some a ->
  let active := running_workers (window a) + pending_finished a in
  let u := ui (window a) in
  (stop_button u = true <-> 1 <= active) /\
  (single_button u = true <-> active = 0) /\
  (integrate_button u = true <-> active = 0) /\
  (continuous_button u = true <-> active = 0).
Proof.
  intros H0 Hf.
  assert (H : controls_consistent a).
  { revert a0 H0 Hf. induction evs as [|ev evs IH]; intros a0 H0 Hf; simpl in Hf.
    - now inversion Hf; subst.
    - destruct (fire ev a0) as [a1|] eqn:E; [|discriminate].
      eapply IH; [|exact Hf]. eapply fire_keeps_controls; eauto. }
  unfold controls_consistent, busy in H. cbv zeta in *.
  destruct H as (Hle & H1 & H2 & H3 & H4).
  rewrite H1, H2, H3, H4.
  destruct (running_workers (window a) + pending_finished a) as [|n]; simpl.
  - repeat split; intros; try reflexivity; try discriminate; lia.
  - repeat split; intros; try reflexivity; try discriminate; lia.
Qed.

(** *** Signals reaching the window *)

Lemma fire_all_app (xs ys : list event) (a : App) :
  fire_all (xs ++ ys) a =
  match fire_all xs a with
  | Some a' => fire_all ys a'
  | None => None
  end.
Proof.
  revert a; induction xs as [|x xs IH]; intros a; simpl; [reflexivity|].
  destruct (fire x a); [apply IH|reflexivity].
Qed.

Lemma last_opt_snoc (A : Type) (l : list A) (x : A) : last_opt (l ++ [x]) = Some x.
Proof. unfold last_opt. now rewrite rev_unit. Qed.

Lemma shows_transfer (s : Spectrum) (self self' : UserInterface) :
  same_sink self self' -> _show_lines self' = _show_lines self ->
  shows s self -> shows s self'.
Proof.
  unfold same_sink, shows. intros (H1 & H2 & H3) H4. now rewrite H1, H2, H3, H4.
Qed.

(** Delivering a list of signals: the window ends up showing the last
    spectrum and the last progress value among them, and nothing else
    changes. *)
Lemma deliver_all (sigs : list signal) (a : App) :
  exists a',
    fire_all (map deliver sigs) a = Some a' /\
    pending_finished a' = pending_finished a /\
    sink_frame (window a') = sink_frame (window a) /\
    match last_opt (spectra sigs) with
    | Some s => shows s (window a')
    | None => same_sink (window a) (window a')
    end /\
    value (progress_bar (ui (window a'))) =
      match last_opt (progress_indices sigs) with
      | Some p => Z.of_nat p
      | None => value (progress_bar (ui (window a)))
      end.
Proof.
  induction sigs as [|sg sigs IH] using rev_ind.
  - exists a. simpl. repeat split.
  - destruct IH as (a1 & Hf & Hp & Hfr & Hs & Hv).
    rewrite map_app, fire_all_app, Hf.
    destruct sg as [[w i]|p]; simpl.
    + eexists. split; [reflexivity|]. simpl.
      split; [exact Hp|]. split; [exact Hfr|].
      rewrite spectra_app, progress_indices_app. simpl.
      rewrite last_opt_snoc, app_nil_r.
      split; [repeat split|exact Hv].
    + eexists. split; [reflexivity|]. simpl.
      split; [exact Hp|]. split; [exact Hfr|].
      rewrite spectra_app, progress_indices_app. simpl.
      rewrite last_opt_snoc, app_nil_r.
      split; [|reflexivity].
      destruct (last_opt (spectra sigs)) as [s|].
      * revert Hs. apply shows_transfer; repeat split.
      * destruct Hs as (H1 & H2 & H3). repeat split; assumption.
Qed.

Lemma integrate_run_emitted (k : nat) (l : list Spectrum) (flag : bool)
    (e : Experiment) (n : nat) :
  length l = k ->
  yields (exp_integrate_spectrum (Z.of_nat k)) e l ->
  4 * k + 2 <= n ->
  i_emitted (exec integrate_act (repeat Tick n) (integrate_start flag (Z.of_nat k) e))
    = steps_from 1 l.
Proof.
  intros Hlen Hy Hn.
  assert (Hrun :
    let st := exec integrate_act (repeat Tick (4 * k + 2))
                (integrate_start flag (Z.of_nat k) e) in
    i_pc st = IExit (Returned tt) /\ i_emitted st = steps_from 1 l).
  { replace (4 * k + 2) with (1 + (4 * length l + 1)) by lia.
    rewrite repeat_plus, exec_app.
    change (exec integrate_act (repeat Tick 1) (integrate_start flag (Z.of_nat k) e))
      with {| i_stopped := false; i_count := Z.of_nat k; i_experiment := e;
              i_iter := Some (exp_integrate_spectrum (Z.of_nat k));
              i_idx := 0; i_pc := INext; i_emitted := [] |}.
    exact (integrate_loop_undisturbed l _ e (Z.of_nat k) 0 [] Hy). }
  destruct Hrun as [Hpc Hem].
  assert (E : exec integrate_act (repeat Tick n) (integrate_start flag (Z.of_nat k) e) =
              exec integrate_act (repeat Tick (4 * k + 2))
                (integrate_start flag (Z.of_nat k) e)).
  { eapply exec_ticks_exit_integrate; eauto. }
  rewrite E. exact Hem.
Qed.

(** X13. A whole integrate run seen from the window.  Let the integrate
    button be enabled, the spin box hold k >= 1, and the generator yield
    the k spectra l, the last of them s.  Click integrate, let the worker
    (set up with the spin box value) run undisturbed, deliver what it
    emitted through the connected slots, let the thread end and its
    [finished] arrive.  Then every event was deliverable and the window
    shows s as its one curve and stored spectrum, the progress bar is full
    (range 0..k, value k), the start buttons are enabled again and the
    stop button disabled, and the integrate worker is no longer running. *)
Theorem integrate_session (a0 : App) (k n : nat) (l' : list Spectrum) (s : Spectrum) :
  integrate_button (ui (window a0)) = true ->
  num_integrations (ui (window a0)) = Z.of_nat k ->
  length (l' ++ [s]) = k ->
  yields (exp_integrate_spectrum (Z.of_nat k)) (experiment (window a0)) (l' ++ [s]) ->
  4 * k + 2 <= n ->
  let started := snd (integrate_spectrum (window a0)) in
  let run :=
    exec integrate_act (repeat Tick n)
      (integrate_start (stopped (integrate_spectrum_worker started))
         (Z.of_nat k) (experiment started)) in
  let events :=
    click_integrate :: map deliver (i_emitted run) ++
    [integrate_thread_ends; finished_delivered] in
  count (integrate_spectrum_worker started) = Some (Z.of_nat k) /\
  exists a,
    fire_all events a0 = Some a /\
    shows s (window a) /\
    progress_bar (ui (window a)) =
      {| minimum := 0%Z; maximum := Z.of_nat k; value := Z.of_nat k |} /\
    (single_button (ui (window a)) = true /\
     integrate_button (ui (window a)) = true /\
     continuous_button (ui (window a)) = true /\
     stop_button (ui (window a)) = false) /\
    isRunning (integrate_spectrum_worker (window a)) = false /\
    pending_finished a = pending_finished a0.
Proof.
  intros Hb Hk Hlen Hy Hn started run events.
  split.
  { unfold started, integrate_spectrum, bind, gets, modify. simpl. now rewrite Hk. }
  assert (Hem : i_emitted run = steps_from 1 (l' ++ [s])).
  { unfold run. apply integrate_run_emitted; auto. }
  unfold events. rewrite Hem.
  change (fire_all (click_integrate :: ?r) a0)
    with (match fire click_integrate a0 with
          | Some a' => fire_all r a' | None => None end).
  simpl fire. unfold on_click. rewrite Hb.
  rewrite fire_all_app.
  destruct (deliver_all (steps_from 1 (l' ++ [s])) (run_slot integrate_spectrum a0))
    as (a1 & Hf & Hp & Hfr & Hs & Hv).
  rewrite Hf.
  rewrite spectra_steps_from, last_opt_snoc in Hs.
  rewrite progress_steps_from, Hlen in Hv.
  assert (Hk1 : exists k', k = S k').
  { rewrite length_app in Hlen. simpl in Hlen. exists (length l'). lia. }
  destruct Hk1 as [k' Hk'].
  rewrite Hk', seq_S, last_opt_snoc in Hv. simpl plus in Hv. rewrite <- Hk' in Hv.
  unfold sink_frame in Hfr. simpl in Hfr.
  injection Hfr as Hsl Hex Hiw Hcw Hef Hni Hsb Hib Hcb Hstb Hmin Hmax.
  simpl. rewrite Hiw. simpl. rewrite Hp. simpl.
  eexists. split; [reflexivity|]. simpl.
  split.
  { revert Hs. apply shows_transfer; repeat split. }
  split.
  { destruct (progress_bar (ui (window a1))) as [mn mx v]. simpl in *.
    congruence. }
  repeat split.
Qed.

(** X14. Whatever a continuous run has emitted, at any point of any
    schedule, delivering it through the connected slot leaves the progress
    bar as it is (the busy indicator is never moved by the run) and makes
    the window show the last spectrum emitted; buttons, workers and
    recorded effects are untouched. *)
Theorem continuous_signals_delivered (flag : bool) (e : Experiment)
    (sched : list action) (a : App) :
  let st := exec continuous_act sched (continuous_start flag e) in
  exists a',
    fire_all (map deliver (c_emitted st)) a = Some a' /\
    progress_bar (ui (window a')) = progress_bar (ui (window a)) /\
    sink_frame (window a') = sink_frame (window a) /\
    pending_finished a' = pending_finished a /\
    (forall ss s, spectra (c_emitted st) = ss ++ [s] -> shows s (window a')) /\
    (spectra (c_emitted st) = [] -> same_sink (window a) (window a')).
Proof.
  intros st.
  assert (Hd : device_order (reads e) st).
  { apply device_order_exec. exists 0, []. simpl. auto. }
  destruct Hd as (_ & _ & _ & Hp & _).
  destruct (deliver_all (c_emitted st) a) as (a' & Hf & Hpe & Hfr & Hs & Hv).
  exists a'. rewrite Hp in Hv. simpl in Hv.
  split; [exact Hf|]. split.
  { unfold sink_frame in Hfr.
    injection Hfr as Hsl Hex Hiw Hcw Hef Hni Hsb Hib Hcb Hstb Hmin Hmax.
    destruct (progress_bar (ui (window a'))), (progress_bar (ui (window a))).
    simpl in *. congruence. }
  split; [exact Hfr|]. split; [exact Hpe|]. split.
  - intros ss s E. rewrite E, last_opt_snoc in Hs. exact Hs.
  - intros E. rewrite E in Hs. exact Hs.
Qed.

End MoreWindowFacts.

(** ** The laboratories, continued *)

(** X2, on the steady device: a run stopped during its first round. *)
Lemma continuous_emits_device_answers_witness :
  let st := exec (@continuous_act lab) [Tick; Tick; Tick; Stop; Tick]
              (continuous_start false fresh_experiment) in
  c_pc st = CExit (Returned tt) /\
  nth_error (spectra (c_emitted st)) 0 = Some first_answer /\
  @device_read lab (reads fresh_experiment + 0) = Returned first_answer /\
  reads (c_experiment st) = reads fresh_experiment + length (spectra (c_emitted st)).
Proof.
  intros st.
  assert (Hpc : c_pc st = CExit (Returned tt)) by (lazy; reflexivity).
  assert (Hn : nth_error (spectra (c_emitted st)) 0 = Some first_answer)
    by (lazy; reflexivity).
  destruct (@continuous_emits_device_answers lab false fresh_experiment
              [Tick; Tick; Tick; Stop; Tick]) as (_ & H2 & _ & _ & H5).
  split; [exact Hpc|]. split; [exact Hn|].
  split; [exact (H2 0 first_answer Hn)|exact (H5 Hpc)].
Defined.

(** X3, on the steady device: two rounds. *)
Lemma continuous_runs_until_stopped_witness :
  let st := exec (@continuous_act lab) (repeat Tick (1 + 3 * 2))
              (continuous_start true fresh_experiment) in
  c_pc st = CRead /\ length (spectra (c_emitted st)) = 2.
Proof.
  exact (proj1 (@continuous_runs_until_stopped lab true fresh_experiment
                  steady_device_never_fails) 2).
Defined.


(** X5, on the steady device: stop() while the first spectrum is being
    delivered, five scans asked for. *)
Lemma integrate_stop_latency_witness :
  let start := @integrate_start lab false 5%Z fresh_experiment in
  let at_stop := exec integrate_act [Tick; Tick; Tick] start in
  let final := exec integrate_act ([Tick; Tick; Tick] ++ Stop :: repeat Tick 5) start in
  5 <= ticks (repeat Tick 5) /\
  (exists o, i_pc final = IExit o) /\
  length (spectra (i_emitted final)) <= length (spectra (i_emitted at_stop)) + 1.
Proof.
  intros start at_stop final.
  assert (Ht : 5 <= ticks (repeat Tick 5)) by (unfold ticks; simpl; lia).
  split; [exact Ht|].
  exact (@integrate_stop_latency lab false 5%Z fresh_experiment [Tick; Tick]
           (repeat Tick 5) (@series_honours_stop steady_device) Ht).
Defined.

(** X6, on three wavelengths and two intensities. *)
Lemma save_data_truncates_witness :
  let r := save_data (env := lab) "out.csv" true window_uneven in
  files_written (effects (snd r)) =
    [("out.csv"%string,
      [["Wavelength (nm)"; "Intensity"]; ["400/1"; "1/1"]; ["500/1"; "2/1"]]%string)] /\
  length (csv_rows (env := lab) [inject_Z 400; inject_Z 500; inject_Z 600]
            [inject_Z 1; inject_Z 2]) = 2.
Proof.
  destruct (@save_data_truncates lab window_uneven
              [inject_Z 400; inject_Z 500; inject_Z 600]
              [inject_Z 1; inject_Z 2] "out.csv" eq_refl eq_refl)
    as (H1 & H2 & _).
  split; [exact H1|exact H2].
Defined.

(** X7, on the session. *)
Lemma sink_holds_last_sample_witness :
  fire_all session fresh_app = Some after_session /\
  sink_consistent (window after_session) /\
  map fst (curves (plot_widget (ui (window after_session)))) =
    [([inject_Z 400], [inject_Z 3])].
Proof.
  assert (H0 : sink_consistent (window fresh_app)) by (lazy; reflexivity).
  assert (Hf : fire_all session fresh_app = Some after_session)
    by (lazy; reflexivity).
  assert (Hw : _wavelengths (window after_session) = Some [inject_Z 400])
    by (lazy; reflexivity).
  assert (Hi : _intensities (window after_session) = Some [inject_Z 3])
    by (lazy; reflexivity).
  destruct (@sink_holds_last_sample lab fresh_app after_session session H0 Hf)
    as (H1 & _ & H3).
  split; [exact Hf|]. split; [exact H1|].
  exact (H3 _ _ Hw Hi).
Defined.

(** X9, on the fresh window of the steady device. *)
Lemma single_measurement_success_witness :
  let r := single_measurement (fresh_window lab) in
  fst r = Returned tt /\
  shows first_answer (snd r) /\
  reads (experiment (snd r)) = 1.
Proof.
  destruct (@single_measurement_success lab (fresh_window lab)
              [inject_Z 400; inject_Z 500; inject_Z 600]
              [inject_Z 0; inject_Z 0; inject_Z 7] eq_refl)
    as (H1 & H2 & H3 & _).
  split; [exact H1|]. split; [exact H2|exact H3].
Defined.


(** X12, on the session. *)
Lemma buttons_follow_runs_witness :
  fire_all session fresh_app = Some after_session /\
  (stop_button (ui (window after_session)) = true <->
   1 <= running_workers (window after_session) + pending_finished after_session) /\
  (integrate_button (ui (window after_session)) = true <->
   running_workers (window after_session) + pending_finished after_session = 0).
Proof.
  assert (H0 : controls_consistent fresh_app).
  { unfold controls_consistent, busy. lazy. repeat split. apply le_S, le_n. }
  assert (Hf : fire_all session fresh_app = Some after_session)
    by (lazy; reflexivity).
  destruct (@buttons_follow_runs lab fresh_app after_session session H0 Hf)
    as (H1 & _ & H3 & _).
  split; [exact Hf|]. split; [exact H1|exact H3].
Defined.

(** X13, on the fresh window of the steady device: five scans. *)
Lemma integrate_session_witness :
  let run := exec (@integrate_act lab) (repeat Tick 22)
               (integrate_start false 5%Z fresh_experiment) in
  let events :=
    click_integrate :: map deliver (i_emitted run) ++
    [integrate_thread_ends; finished_delivered] in
  exists a,
    fire_all events fresh_app = Some a /\
    shows fifth_scan (window a) /\
    progress_bar (ui (window a)) =
      {| minimum := 0%Z; maximum := 5%Z; value := 5%Z |} /\
    stop_button (ui (window a)) = false /\
    isRunning (integrate_spectrum_worker (window a)) = false.
Proof.
  assert (Hb : integrate_button (ui (window fresh_app)) = true) by reflexivity.
  assert (Hk : num_integrations (ui (window fresh_app)) = Z.of_nat 5) by reflexivity.
  assert (Hlen : length (first_four ++ [fifth_scan]) = 5) by (lazy; reflexivity).
  assert (Hy : yields (env := lab) (exp_integrate_spectrum (Z.of_nat 5))
                 (experiment (window fresh_app)) (first_four ++ [fifth_scan])).
  { lazy. repeat (eexists; eexists; split; [reflexivity|]). eexists. reflexivity. }
  assert (Hn : 4 * 5 + 2 <= 22) by (simpl; lia).
  destruct (@integrate_session lab fresh_app 5 22 first_four fifth_scan
              Hb Hk Hlen Hy Hn)
    as (_ & a & H1 & H2 & H3 & (_ & _ & _ & H4) & H5 & _).
  exists a.
  split; [exact H1|]. split; [exact H2|]. split; [exact H3|].
  split; [exact H4|exact H5].
Defined.

(** X14, on the steady device: two rounds of a continuous run. *)
Lemma continuous_signals_delivered_witness :
  let st := exec (@continuous_act lab) (repeat Tick 7)
              (continuous_start false fresh_experiment) in
  exists a',
    fire_all (map deliver (c_emitted st)) fresh_app = Some a' /\
    progress_bar (ui (window a')) = progress_bar (ui (window fresh_app)) /\
    _wavelengths (window a') = Some [inject_Z 400; inject_Z 500; inject_Z 600].
Proof.
  intros st.
  assert (E : spectra (c_emitted st) =
              [first_answer] ++
              [([inject_Z 400; inject_Z 500; inject_Z 600],
                [inject_Z 1; inject_Z 2; inject_Z 7])])
    by (lazy; reflexivity).
  destruct (@continuous_signals_delivered lab false fresh_experiment
              (repeat Tick 7) fresh_app)
    as (a' & H1 & H2 & _ & _ & H5 & _).
  exists a'.
  split; [exact H1|]. split; [exact H2|].
  exact (proj1 (H5 _ _ E)).
Defined.

(** C4 as claimed fails.  In [lab], whose device always answers, a stop
    request made after start() but before [run] has executed its first
    statement is overwritten by the reset: however many steps the worker
    makes, the run does not end.  And in [faulty_lab], a run whose first
    read is the failing one ends by the device's error with nothing
    emitted, although a stop request was made during that read. *)
Lemma stop_before_reset_never_ends :
  (~ exists n o,
       c_pc (exec (@continuous_act lab) (Stop :: repeat Tick n)
               (continuous_start false fresh_experiment)) = CExit o) /\
  (let st := exec (@continuous_act faulty_lab) [Tick; Stop; Tick; Tick; Tick]
               (continuous_start false {| exp_stopped := false; reads := 1 |}) in
   c_pc st = CExit (Raised DeviceError) /\ spectra (c_emitted st) = []).
Proof.
  split.
  - intros (n & o & H).
    destruct n as [|n]; [discriminate|].
    change (exec (@continuous_act lab) (Stop :: repeat Tick (S n))
              (continuous_start false fresh_experiment))
      with (exec (@continuous_act lab) (repeat Tick (S n))
              (continuous_start true fresh_experiment)) in H.
    destruct (@continuous_keeps_running lab steady_device_never_fails true
                fresh_experiment n) as [_ Hl].
    unfold in_loop in Hl. now rewrite H in Hl.
  - lazy. split; reflexivity.
Qed.
